(** * EIP-2771 toolkit: the EIP-712 hashing, signature record and batch model

    A shallow embedding of the Go package [eip2771toolkit] (its types,
    EIP-712 hashing, helpers and relayer) and the properties its specification
    states about it.

    Conventions.
    - [[]byte] is [list byte]; a Go [string] is a Rocq [string], whose
      characters are its bytes ([[]byte(s)] is [list_byte_of_string]).
    - A fixed array [[n]byte] ([common.Address], [Signature.R]) is a
      [Vector.t byte n], so its length is part of the type as in Go.
    - [uint64] is a [Z] with the wrap-around modulo 2^64 written out.
    - [*big.Int] is an [option Z] ([None] is the nil pointer).
    - A Go call that returns [(v, err)] returns an [outcome]; a run-time
      panic is the third outcome. *)

From Stdlib Require Import ZArith NArith List Bool Lia.
From Stdlib Require Import Strings.String Strings.Ascii Strings.Byte.
Set Warnings "-stdlib-vector".
From Stdlib Require Vectors.Vector.
Import ListNotations.

Local Open Scope Z_scope.

(** ** Slices *)

Module Slice.

Section Generic.
Context {A : Type}.

(** [make([]A, n)]: [n] zero values, [zero] being the zero value of [A]. *)
Definition make (zero : A) (n : nat) : list A := repeat zero n.

(** Go's builtin [copy(dst, src)]: the first [min (len dst) (len src)]
    elements of [dst] are overwritten, the rest of [dst] stays.  The result
    is the new contents of [dst]. *)
Fixpoint copy (dst src : list A) : list A :=
  match dst, src with
  | [], _ => []
  | d :: dst', [] => d :: dst'
  | _ :: dst', s :: src' => s :: copy dst' src'
  end.

(** The sub-slice [s[lo:hi]], for [lo <= hi <= len s]. *)
Definition slice (s : list A) (lo hi : nat) : list A :=
  firstn (hi - lo) (skipn lo s).

(** What [copy(dst[lo:hi], src)] leaves in [dst]. *)
Definition copy_into (dst : list A) (lo hi : nat) (src : list A) : list A :=
  firstn lo dst ++ copy (slice dst lo hi) src ++ skipn hi dst.

(** [dst[i] = v] for [i < len dst].  Go panics on an index out of range; the
    package only stores below the length it has just allocated, and here such
    a store would leave [dst] as it is. *)
Fixpoint store (dst : list A) (i : nat) (v : A) : list A :=
  match dst, i with
  | [], _ => []
  | _ :: dst', O => v :: dst'
  | d :: dst', S i' => d :: store dst' i' v
  end.

(** [copy(a[:], src)] where [a] is a fixed array. *)
Fixpoint vcopy {n : nat} (dst : Vector.t A n) (src : list A) : Vector.t A n :=
  match dst in Vector.t _ m return Vector.t A m with
  | Vector.nil _ => Vector.nil _
  | Vector.cons _ d _ dst' =>
      match src with
      | [] => Vector.cons _ d _ dst'
      | s :: src' => Vector.cons _ s _ (vcopy dst' src')
      end
  end.

End Generic.

End Slice.

(** ** Bytes *)

Module Bytes.

Definition byte_of_N (n : N) : byte :=
  match Byte.of_N (n mod 256) with
  | Some b => b
  | None => x00
  end.

Definition byte_of_Z (z : Z) : byte := byte_of_N (Z.to_N (z mod 256)).

Definition Z_of_byte (b : byte) : Z := Z.of_N (Byte.to_N b).

(** [make([]byte, n)]. *)
Definition make (n : nat) : list byte := Slice.make x00 n.

(** Big-endian digits: the [n] low base-256 digits of [v], most significant
    first. *)
Fixpoint be_bytes (n : nat) (v : Z) : list byte :=
  match n with
  | O => []
  | S n' => be_bytes n' (v / 256) ++ [byte_of_Z v]
  end.

(** The number a byte string denotes, read big-endian. *)
Definition be_value (bs : list byte) : Z :=
  fold_left (fun acc b => 256 * acc + Z_of_byte b) bs 0.

End Bytes.

(** ** Keccak-256

    [crypto.Keccak256] of go-ethereum is the original Keccak with rate 1088,
    capacity 512, the [0x01] domain byte and a 32-byte output.  The
    permutation Keccak-f[1600] works on 25 lanes of 64 bits; lane [(x, y)] is
    element [x + 5 * y] of the state. *)

Module Keccak.

Local Open Scope N_scope.

Definition lane_mask : N := 0xFFFFFFFFFFFFFFFF.

Definition rotl (w : N) (r : N) : N :=
  N.land (N.lor (N.shiftl w r) (N.shiftr w (64 - r))) lane_mask.

Definition lane (st : list N) (x y : nat) : N :=
  nth (x mod 5 + 5 * (y mod 5))%nat st 0.

Definition round_constants : list N :=
  [ 0x0000000000000001; 0x0000000000008082; 0x800000000000808A;
    0x8000000080008000; 0x000000000000808B; 0x0000000080000001;
    0x8000000080008081; 0x8000000000008009; 0x000000000000008A;
    0x0000000000000088; 0x0000000080008009; 0x000000008000000A;
    0x000000008000808B; 0x800000000000008B; 0x8000000000008089;
    0x8000000000008003; 0x8000000000008002; 0x8000000000000080;
    0x000000000000800A; 0x800000008000000A; 0x8000000080008081;
    0x8000000000008080; 0x0000000080000001; 0x8000000080008008 ].

(** Rotation offsets, lane [x + 5 * y] at position [x + 5 * y]. *)
Definition rotation_offsets : list N :=
  [  0;  1; 62; 28; 27;
    36; 44;  6; 55; 20;
     3; 10; 43; 25; 39;
    41; 45; 15; 21;  8;
    18;  2; 61; 56; 14 ].

Definition positions : list (nat * nat) :=
  List.map (fun i => (i mod 5, i / 5)%nat) (seq 0 25).

Definition theta (st : list N) : list N :=
  let c := fun x => N.lxor (lane st x 0) (N.lxor (lane st x 1)
             (N.lxor (lane st x 2) (N.lxor (lane st x 3) (lane st x 4)))) in
  let d := fun x => N.lxor (c (x + 4)%nat) (rotl (c (x + 1)%nat) 1) in
  List.map (fun '(x, y) => N.lxor (lane st x y) (d x)) positions.

(** rho and pi together: the lane that lands on [(x, y)] comes from
    [(x + 3 * y, x)], rotated by that lane's offset. *)
Definition rho_pi (st : list N) : list N :=
  List.map (fun '(x, y) =>
         let sx := ((x + 3 * y) mod 5)%nat in
         rotl (lane st sx x) (nth (sx + 5 * x)%nat rotation_offsets 0))
      positions.

Definition chi (st : list N) : list N :=
  List.map (fun '(x, y) =>
         N.lxor (lane st x y)
                (N.land (N.lxor (lane st (x + 1) y) lane_mask) (lane st (x + 2) y)))
      positions.

Definition iota (rc : N) (st : list N) : list N :=
  match st with
  | [] => []
  | a :: rest => N.lxor a rc :: rest
  end.

Definition round (st : list N) (rc : N) : list N :=
  iota rc (chi (rho_pi (theta st))).

Definition keccak_f (st : list N) : list N :=
  fold_left round round_constants st.

(** Little-endian lane of up to eight bytes. *)
Fixpoint lane_of_bytes (bs : list byte) : N :=
  match bs with
  | [] => 0
  | b :: rest => Byte.to_N b + 256 * lane_of_bytes rest
  end.

Fixpoint lanes_of_bytes (n : nat) (bs : list byte) : list N :=
  match n with
  | O => []
  | S n' => lane_of_bytes (firstn 8 bs) :: lanes_of_bytes n' (skipn 8 bs)
  end.

Fixpoint xor_lanes (st blk : list N) : list N :=
  match st, blk with
  | s :: st', b :: blk' => N.lxor s b :: xor_lanes st' blk'
  | _, _ => st
  end.

Definition rate : nat := 136.

(** pad10*1 with the Keccak domain byte: [0x01], zeros, and [0x80] or-ed into
    the last byte of the block. *)
Definition pad (msg : list byte) : list byte :=
  let q := (rate - List.length msg mod rate)%nat in
  if (q =? 1)%nat then msg ++ [x81]
  else msg ++ [x01] ++ repeat x00 (q - 2) ++ [x80].

Fixpoint absorb (blocks : nat) (st : list N) (bs : list byte) : list N :=
  match blocks with
  | O => st
  | S k =>
      absorb k (keccak_f (xor_lanes st (lanes_of_bytes 17 (firstn rate bs))))
             (skipn rate bs)
  end.

Definition squeeze_byte (st : list N) (i : nat) : byte :=
  Bytes.byte_of_N (N.shiftr (nth (i / 8) st 0) (8 * N.of_nat (i mod 8))).

Definition Keccak256 (msg : list byte) : list byte :=
  let padded := pad msg in
  let st := absorb (List.length padded / rate) (repeat 0 25) padded in
  List.map (squeeze_byte st) (seq 0 32).

End Keccak.

Definition hex_digit (n : N) : ascii :=
  ascii_of_N (if (n <? 10)%N then 48 + n else 87 + n)%N.

(** Lower-case hexadecimal rendering of a byte string, for test vectors. *)
Fixpoint hex (bs : list byte) : string :=
  match bs with
  | [] => EmptyString
  | b :: rest =>
      let n := Byte.to_N b in
      String (hex_digit (n / 16)) (String (hex_digit (n mod 16)) (hex rest))
  end.

(** ** Errors and outcomes *)

(** [ctx.Err()] once the context is done. *)
Inductive ContextError : Type :=
| Canceled
| DeadlineExceeded.

(** The package's sentinel errors (errors.go), the errors it formats with
    [fmt.Errorf] (one constructor per call site, holding the values it prints
    and the error it wraps), and the errors of its collaborators. *)
Inductive error : Type :=
| ErrInvalidSignatureLength
| ErrInvalidSignature
| ErrExpiredDeadline
| ErrInvalidNonce
| ErrZeroAddress
| ErrInvalidAmount
| ErrContractCallFailed
| ErrRecipientsAmountsMismatch (recipients amounts : nat)
| ErrMetaTxsKeysMismatch (metaTxs keys : nat)
| ErrNonceAt (index : nat) (expected got : Z)
| ErrTransferData (cause : error)
| ErrHashMetaTx (cause : error)
| ErrSignHash (cause : error)
| ErrParseSignature (cause : error)
| ErrRecoverPublicKey (cause : error)
| ErrSignMetaTx (cause : error)
| ErrCreateBatchRequestAt (index : nat) (cause : error)
| ErrVerifyAt (index : nat) (cause : error)
| ErrInvalidMetaTx (cause : error)
| ErrEmptyBatch
| ErrInvalidMetaTxAt (index : nat) (cause : error)
| ErrExpiredDeadlineAt (index : nat)
| ErrContext (cause : ContextError)
| ErrCrypto (code : nat).

(** What a call does: return a value with a nil error, return a non-nil
    error, or panic. *)
Inductive outcome (A : Type) : Type :=
| Ret (a : A)
| Fail (e : error)
| Panic.

Arguments Ret {A} a.
Arguments Fail {A} e.
Arguments Panic {A}.

Definition bind {A B : Type} (o : outcome A) (k : A -> outcome B) : outcome B :=
  match o with
  | Ret a => k a
  | Fail e => Fail e
  | Panic => Panic
  end.

(** [if err != nil { return ..., wrap(err) }]. *)
Definition wrap {A : Type} (w : error -> error) (o : outcome A) : outcome A :=
  match o with
  | Ret a => Ret a
  | Fail e => Fail (w e)
  | Panic => Panic
  end.

(** [l[i]]: an index out of range panics. *)
Definition index {A : Type} (l : list A) (i : nat) : outcome A :=
  match nth_error l i with
  | Some v => Ret v
  | None => Panic
  end.

Declare Scope outcome_scope.
Delimit Scope outcome_scope with outcome.
Notation "x <- o ;; k" := (bind o (fun x => k))
  (at level 61, o at next level, right associativity) : outcome_scope.

(** ** Data model (types.go) *)

(** [common.Address]: a [[20]byte]. *)
Definition Address : Type := Vector.t byte 20.

(** [Address.Bytes()]: the 20 bytes of the array. *)
Definition Address_Bytes (a : Address) : list byte := Vector.to_list a.

(** [common.Address{}], the zero address. *)
Definition zero_address : Address := Vector.const x00 20.

Definition Address_eqb (a b : Address) : bool := Vector.eqb byte Byte.eqb a b.

(** The address whose 20 bytes are the big-endian digits of [z]. *)
Definition address_of_Z (z : Z) : Address :=
  Slice.vcopy zero_address (Bytes.be_bytes 20 z).

Definition two64 : Z := 2 ^ 64.
Definition two256 : Z := 2 ^ 256.

(** The values of a [uint64]. *)
Definition is_uint64 (v : Z) : Prop := 0 <= v < two64.

(** [uint64(i)] for a slice index [i]. *)
Definition uint64_of_int (i : nat) : Z := Z.of_nat i mod two64.

(** [a + b] on [uint64]: Go wraps around. *)
Definition add_uint64 (a b : Z) : Z := (a + b) mod two64.

Record MetaTx : Type := mkMetaTx {
  From : Address;
  To : Address;
  Token : Address;
  Amount : option Z;
  Gas : Z;
  Nonce : Z;
  Deadline : Z
}.

(** The [uint64] fields hold [uint64] values. *)
Definition MetaTx_wf (m : MetaTx) : Prop :=
  is_uint64 (Gas m) /\ is_uint64 (Nonce m) /\ is_uint64 (Deadline m).

Record Signature : Type := mkSignature {
  SigV : byte;
  SigR : Vector.t byte 32;
  SigS : Vector.t byte 32
}.

Record BatchMetaTxRequest : Type := mkBatchMetaTxRequest {
  MetaTx_of : MetaTx;
  Signature_of : Signature
}.

Definition BatchMetaTxRequestList : Type := list BatchMetaTxRequest.

(** Zero values, as [var x T] and [make] produce them. *)
Definition zero_MetaTx : MetaTx :=
  mkMetaTx zero_address zero_address zero_address None 0 0 0.

Definition zero_Signature : Signature :=
  mkSignature x00 (Vector.const x00 32) (Vector.const x00 32).

Definition zero_BatchMetaTxRequest : BatchMetaTxRequest :=
  mkBatchMetaTxRequest zero_MetaTx zero_Signature.

(** [Signature.ToBytes].  The buffer has 65 bytes, so the store at index 64
    is in range. *)
Definition ToBytes (s : Signature) : list byte :=
  let result := Bytes.make 65 in
  let result := Slice.copy_into result 0 32 (Vector.to_list (SigR s)) in
  let result := Slice.copy_into result 32 64 (Vector.to_list (SigS s)) in
  Slice.store result 64 (SigV s).

(** [Signature.FromBytes]: the receiver after the call, and the error
    ([None] is nil). *)
Definition FromBytes (s : Signature) (data : list byte) : Signature * option error :=
  if negb (List.length data =? 65)%nat then (s, Some ErrInvalidSignatureLength)
  else
    let s := mkSignature (SigV s) (Slice.vcopy (SigR s) (Slice.slice data 0 32)) (SigS s) in
    let s := mkSignature (SigV s) (SigR s) (Slice.vcopy (SigS s) (Slice.slice data 32 64)) in
    let s := mkSignature (nth 64 data x00) (SigR s) (SigS s) in
    (s, None).

(** [FillBytes(buf)] on a [big.Int] pointer: the absolute value, big-endian
    and zero-extended to [len buf]; it panics on a nil receiver and when the
    value does not fit. *)
Definition FillBytes (x : option Z) (buf : list byte) : outcome (list byte) :=
  match x with
  | None => Panic
  | Some v =>
      if Z.abs v <? 256 ^ Z.of_nat (List.length buf)
      then Ret (Bytes.be_bytes (List.length buf) (Z.abs v))
      else Panic
  end.

(** [new(big.Int).SetUint64(v)]. *)
Definition SetUint64 (v : Z) : option Z := Some v.

(** [crypto.Keccak256([]byte(s))]. *)
Definition Keccak256_string (s : string) : list byte :=
  Keccak.Keccak256 (list_byte_of_string s).

Arguments Keccak.Keccak256 : simpl never.
Arguments Keccak256_string : simpl never.

(** [MetaTx.TransferData]. *)
Definition TransferData (m : MetaTx) : outcome (list byte) :=
  let transferSignature :=
    firstn 4 (Keccak256_string "transfer(address,uint256)") in
  let data := [] in
  let data := data ++ transferSignature in
  let toBytes := Bytes.make 32 in
  let toBytes := Slice.copy_into toBytes 12 32 (Address_Bytes (To m)) in
  let data := data ++ toBytes in
  let amountBytes := Bytes.make 32 in
  (amountBytes <- FillBytes (Amount m) amountBytes ;;
   let data := data ++ amountBytes in
   Ret data)%outcome.

(** ** EIP-712 hashing (eip712.go) *)

Definition EIP712_DOMAIN_TYPEHASH : string :=
  "EIP712Domain(string name,string version,uint256 chainId,address verifyingContract)".

Definition FORWARD_REQUEST_TYPEHASH : string :=
  "ForwardRequest(address from,address to,uint256 value,uint256 gas,uint256 nonce,uint48 deadline,bytes data)".

Definition BuildDomainSeparator (name version : string) (chainId : option Z)
    (verifyingContract : Address) : outcome (list byte) :=
  let domainTypeHash := Keccak256_string EIP712_DOMAIN_TYPEHASH in
  let nameHash := Keccak256_string name in
  let versionHash := Keccak256_string version in
  let chainIdBytes := Bytes.make 32 in
  (chainIdBytes <- FillBytes chainId chainIdBytes ;;
   let data := [] in
   let data := data ++ domainTypeHash in
   let data := data ++ nameHash in
   let data := data ++ versionHash in
   let data := data ++ chainIdBytes in
   let data := data ++ Address_Bytes verifyingContract in
   let domainSeparator := Keccak.Keccak256 data in
   Ret domainSeparator)%outcome.

Definition HashMetaTx (metaTx : MetaTx) (domainSeparator : list byte)
    : outcome (list byte) :=
  let structTypeHash := Keccak256_string FORWARD_REQUEST_TYPEHASH in
  (transferData <- wrap ErrTransferData (TransferData metaTx) ;;
   let structData := [] in
   let structData := structData ++ structTypeHash in
   let structData := structData ++ Address_Bytes (From metaTx) in
   let structData := structData ++ Address_Bytes (Token metaTx) in
   let valueBytes := Bytes.make 32 in
   let structData := structData ++ valueBytes in
   let gasBytes := Bytes.make 32 in
   gasBytes <- FillBytes (SetUint64 (Gas metaTx)) gasBytes ;;
   let structData := structData ++ gasBytes in
   let nonceBytes := Bytes.make 32 in
   nonceBytes <- FillBytes (SetUint64 (Nonce metaTx)) nonceBytes ;;
   let structData := structData ++ nonceBytes in
   let deadlineBytes := Bytes.make 32 in
   deadlineBytes <- FillBytes (SetUint64 (Deadline metaTx)) deadlineBytes ;;
   let structData := structData ++ deadlineBytes in
   let dataHash := Keccak.Keccak256 transferData in
   let structData := structData ++ dataHash in
   let structHash := Keccak.Keccak256 structData in
   let digest := [] in
   let digest := digest ++ [x19; x01] in
   let digest := digest ++ domainSeparator in
   let digest := digest ++ structHash in
   let finalHash := Keccak.Keccak256 digest in
   Ret finalHash)%outcome.

(** ** The encodings the specification names *)

(** [leftpad32(addr)]: 12 zero bytes, then the 20 address bytes. *)
Definition leftpad32 (a : Address) : list byte :=
  repeat x00 12 ++ Address_Bytes a.

(** [be32(n)]: the 32-byte big-endian unsigned representation. *)
Definition be32 (n : Z) : list byte := Bytes.be_bytes 32 n.

(** [selector(4)]: [0xa9059cbb]. *)
Definition transfer_selector : list byte := [xa9; x05; x9c; xbb].

(** [transferCalldata(to, amount)] of section 4.2. *)
Definition spec_transferCalldata (to : Address) (amount : Z) : list byte :=
  transfer_selector ++ leftpad32 to ++ be32 amount.

(** The domain separator of section 4.4: five 32-byte words. *)
Definition spec_domainSeparator (name version : string) (chainId : Z)
    (verifyingContract : Address) : list byte :=
  Keccak.Keccak256
    (Keccak256_string EIP712_DOMAIN_TYPEHASH
     ++ Keccak256_string name
     ++ Keccak256_string version
     ++ be32 chainId
     ++ leftpad32 verifyingContract).

(** The struct hash of section 4.4: eight 32-byte words. *)
Definition spec_structHash (m : MetaTx) (amount : Z) : list byte :=
  Keccak.Keccak256
    (Keccak256_string FORWARD_REQUEST_TYPEHASH
     ++ leftpad32 (From m)
     ++ leftpad32 (Token m)
     ++ be32 0
     ++ be32 (Gas m)
     ++ be32 (Nonce m)
     ++ be32 (Deadline m)
     ++ Keccak.Keccak256 (spec_transferCalldata (To m) amount)).

(** The digest of section 4.4. *)
Definition spec_digest (m : MetaTx) (amount : Z) (domainSeparator : list byte)
    : list byte :=
  Keccak.Keccak256 ([x19; x01] ++ domainSeparator ++ spec_structHash m amount).

(** ** Constructors and validators *)

Definition NewMetaTx (from to token : Address) (amount : option Z)
    (gas nonce deadline : Z) : MetaTx :=
  mkMetaTx from to token amount gas nonce deadline.


(** The loop [for i := range recipients] of [NewMetaTxBatch]: [todo]
    iterations are left, the next index is [i]. *)
Fixpoint NewMetaTxBatch_loop (from : Address) (recipients : list Address)
    (token : Address) (amounts : list (option Z)) (gas startingNonce deadline : Z)
    (todo i : nat) (metaTxs : list MetaTx) : outcome (list MetaTx) :=
  match todo with
  | O => Ret metaTxs
  | S todo' =>
      (recipient <- index recipients i ;;
       amount <- index amounts i ;;
       let metaTxs :=
         Slice.store metaTxs i
           (NewMetaTx from recipient token amount gas
              (add_uint64 startingNonce (uint64_of_int i)) deadline) in
       NewMetaTxBatch_loop from recipients token amounts gas startingNonce
         deadline todo' (S i) metaTxs)%outcome
  end.

Definition NewMetaTxBatch (from : Address) (recipients : list Address)
    (token : Address) (amounts : list (option Z)) (gas startingNonce deadline : Z)
    : outcome (list MetaTx) :=
  if negb (List.length recipients =? List.length amounts)%nat
  then Fail (ErrRecipientsAmountsMismatch (List.length recipients) (List.length amounts))
  else
    let metaTxs := Slice.make zero_MetaTx (List.length recipients) in
    NewMetaTxBatch_loop from recipients token amounts gas startingNonce deadline
      (List.length recipients) 0 metaTxs.

(** The loop [for i, req := range batch] of [ValidateBatchNonces], from
    index [i] on. *)
Fixpoint ValidateBatchNonces_from (batch : BatchMetaTxRequestList) (i : nat)
    (expectedStartNonce : Z) : option error :=
  match batch with
  | [] => None
  | req :: rest =>
      let expectedNonce := add_uint64 expectedStartNonce (uint64_of_int i) in
      if negb (Nonce (MetaTx_of req) =? expectedNonce)
      then Some (ErrNonceAt i expectedNonce (Nonce (MetaTx_of req)))
      else ValidateBatchNonces_from rest (S i) expectedStartNonce
  end.

Definition ValidateBatchNonces (batch : BatchMetaTxRequestList)
    (expectedStartNonce : Z) : option error :=
  ValidateBatchNonces_from batch 0 expectedStartNonce.

(** [amount == nil || amount.Sign() <= 0]. *)
Definition amount_invalid (amount : option Z) : bool :=
  match amount with
  | None => true
  | Some a => Z.sgn a <=? 0
  end.

Definition validateMetaTx (metaTx : MetaTx) : option error :=
  if Address_eqb (From metaTx) zero_address then Some ErrZeroAddress
  else if Address_eqb (To metaTx) zero_address then Some ErrZeroAddress
  else if Address_eqb (Token metaTx) zero_address then Some ErrZeroAddress
  else if amount_invalid (Amount metaTx) then Some ErrInvalidAmount
  else if Deadline metaTx =? 0 then Some ErrExpiredDeadline
  else None.


(** The validation loop of [RelayMetaTxBatch], from index [i] on.  The loop
    reads the clock anew in every iteration, after [validateMetaTx] and only
    if it passed; an iteration that goes on to the next has read it once, so
    the reading of iteration [i] is the [i]-th of the call.  [clock k] is
    what the [k]-th [uint64(time.Now().Unix())] of the call reads. *)
Fixpoint RelayMetaTxBatch_validate (clock : nat -> Z)
    (batchRequests : BatchMetaTxRequestList) (i : nat) : option error :=
  match batchRequests with
  | [] => None
  | req :: rest =>
      match validateMetaTx (MetaTx_of req) with
      | Some err => Some (ErrInvalidMetaTxAt i err)
      | None =>
          if clock i >? Deadline (MetaTx_of req) then Some (ErrExpiredDeadlineAt i)
          else RelayMetaTxBatch_validate clock rest (S i)
      end
  end.

(** [RelayMetaTxBatch], with [submit] for the part after the validation. *)
Definition RelayMetaTxBatch {H : Type} (clock : nat -> Z)
    (submit : BatchMetaTxRequestList -> Address -> outcome H)
    (batchRequests : BatchMetaTxRequestList) (refundReceiver : Address) : outcome H :=
  if (List.length batchRequests =? 0)%nat then Fail ErrEmptyBatch
  else
    match RelayMetaTxBatch_validate clock batchRequests 0 with
    | Some err => Fail err
    | None => submit batchRequests refundReceiver
    end.

(** ** Effects: the cancellation signal and the calls to the primitives *)

(** What a run does that its result does not show. *)
Inductive Event : Type :=
| EvPoll
| EvSign (digest : list byte)
| EvRecover (digest sig : list byte).

(** [polls] counts the times the context has been polled; [trace] lists the
    events in the order they happen. *)
Record World : Type := mkWorld {
  polls : nat;
  trace : list Event
}.

(** A [context.Context] seen from a sequential caller: what the [k]-th poll
    of [ctx.Done()] finds, [None] while the context is not done. *)
Definition Ctx : Type := nat -> option ContextError.

(** A context that was done, with error [e], before the call. *)
Definition AlreadyCancelled (ctx : Ctx) (e : ContextError) : Prop :=
  forall k, ctx k = Some e.

(** A context that is never done ([context.Background()]). *)
Definition background : Ctx := fun _ => None.

Definition M (A : Type) : Type := World -> outcome A * World.

Definition retM {A : Type} (a : A) : M A := fun w => (Ret a, w).

Definition bindM {A B : Type} (m : M A) (k : A -> M B) : M B :=
  fun w =>
    match m w with
    | (Ret a, w') => k a w'
    | (Fail e, w') => (Fail e, w')
    | (Panic, w') => (Panic, w')
    end.

Definition lift {A : Type} (o : outcome A) : M A := fun w => (o, w).

Definition emit (ev : Event) : M unit :=
  fun w => (Ret tt, mkWorld (polls w) (trace w ++ [ev])).

Definition wrapM {A : Type} (f : error -> error) (m : M A) : M A :=
  fun w => let (o, w') := m w in (wrap f o, w').

Declare Scope M_scope.
Delimit Scope M_scope with M.
Notation "x <- m ;; k" := (bindM m (fun x => k))
  (at level 61, m at next level, right associativity) : M_scope.

(** [select { case <-ctx.Done(): return nil, ctx.Err(); default: }]. *)
Definition check_cancelled (ctx : Ctx) : M unit :=
  fun w =>
    let w' := mkWorld (S (polls w)) (trace w ++ [EvPoll]) in
    match ctx (polls w) with
    | Some e => (Fail (ErrContext e), w')
    | None => (Ret tt, w')
    end.

(** The loop the three batch operations share:
    [for i, x := range xs { poll; v, err := body(i, x); if err != nil
    { return nil, err }; out[i] = v }], from index [i] on. *)
Fixpoint range_loop {A B : Type} (ctx : Ctx) (body : nat -> A -> M B)
    (xs : list A) (i : nat) (out : list B) : M (list B) :=
  match xs with
  | [] => retM out
  | x :: rest =>
      (_ <- check_cancelled ctx ;;
       v <- body i x ;;
       range_loop ctx body rest (S i) (Slice.store out i v))%M
  end.

(** The secp256k1 primitives of go-ethereum's [crypto] package: [Sign] and
    [SigToPub] return a value or an error, [PubkeyToAddress] is total. *)
Class Crypto : Type := {
  PrivateKey : Type;
  PublicKey : Type;
  crypto_Sign : list byte -> PrivateKey -> error + list byte;
  crypto_SigToPub : list byte -> list byte -> error + PublicKey;
  crypto_PubkeyToAddress : PublicKey -> Address
}.

Definition of_result {A : Type} (r : error + A) : outcome A :=
  match r with
  | inl e => Fail e
  | inr a => Ret a
  end.

Section Signing.
Context `{Crypto}.

Definition SignMetaTx (metaTx : MetaTx) (userPrivKey : PrivateKey)
    (domainSeparator : list byte) : M Signature :=
  let sig := zero_Signature in
  (hash <- lift (wrap ErrHashMetaTx (HashMetaTx metaTx domainSeparator)) ;;
   _ <- emit (EvSign hash) ;;
   sigBytes <- lift (wrap ErrSignHash (of_result (crypto_Sign hash userPrivKey))) ;;
   match FromBytes sig sigBytes with
   | (_, Some err) => lift (Fail (ErrParseSignature err))
   | (sig, None) => retM sig
   end)%M.

Definition VerifyMetaTxSignature (metaTx : MetaTx) (sig : Signature)
    (domainSeparator : list byte) : M bool :=
  (hash <- lift (wrap ErrHashMetaTx (HashMetaTx metaTx domainSeparator)) ;;
   let sigBytes := ToBytes sig in
   _ <- emit (EvRecover hash sigBytes) ;;
   recoveredPubKey <-
     lift (wrap ErrRecoverPublicKey (of_result (crypto_SigToPub hash sigBytes))) ;;
   let recoveredAddr := crypto_PubkeyToAddress recoveredPubKey in
   retM (Address_eqb recoveredAddr (From metaTx)))%M.

Definition CreateBatchRequest (metaTx : MetaTx) (userPrivKey : PrivateKey)
    (domainSeparator : list byte) : M BatchMetaTxRequest :=
  (signature <- wrapM ErrSignMetaTx (SignMetaTx metaTx userPrivKey domainSeparator) ;;
   retM (mkBatchMetaTxRequest metaTx signature))%M.

Definition CreateBatchFromMetaTxs (ctx : Ctx) (metaTxs : list MetaTx)
    (userPrivKeys : list PrivateKey) (domainSeparator : list byte)
    : M BatchMetaTxRequestList :=
  if negb (List.length metaTxs =? List.length userPrivKeys)%nat
  then lift (Fail (ErrMetaTxsKeysMismatch (List.length metaTxs) (List.length userPrivKeys)))
  else
    let batch := Slice.make zero_BatchMetaTxRequest (List.length metaTxs) in
    range_loop ctx
      (fun i metaTx =>
         (userPrivKey <- lift (index userPrivKeys i) ;;
          wrapM (ErrCreateBatchRequestAt i)
            (CreateBatchRequest metaTx userPrivKey domainSeparator))%M)
      metaTxs 0%nat batch.

Definition CreateBatchFromSingleUser (ctx : Ctx) (metaTxs : list MetaTx)
    (userPrivKey : PrivateKey) (domainSeparator : list byte)
    : M BatchMetaTxRequestList :=
  let batch := Slice.make zero_BatchMetaTxRequest (List.length metaTxs) in
  range_loop ctx
    (fun i metaTx =>
       wrapM (ErrCreateBatchRequestAt i)
         (CreateBatchRequest metaTx userPrivKey domainSeparator))
    metaTxs 0%nat batch.

Definition VerifyBatchRequests (ctx : Ctx) (batchRequests : BatchMetaTxRequestList)
    (domainSeparator : list byte) : M (list bool) :=
  let results := Slice.make false (List.length batchRequests) in
  range_loop ctx
    (fun i req =>
       wrapM (ErrVerifyAt i)
         (VerifyMetaTxSignature (MetaTx_of req) (Signature_of req) domainSeparator))
    batchRequests 0%nat results.

End Signing.

(** The events a run adds to the trace of the world it starts from. *)
Definition events_of {A : Type} (m : M A) (w : World) : list Event :=
  skipn (List.length (trace w)) (trace (snd (m w))).

Definition initial_world : World := mkWorld 0 [].

(** A stand-in for the secp256k1 primitives, to run the model on concrete
    inputs: a key is the address it signs for, a signature is that address
    followed by 45 bytes that say nothing, recovery reads the address back
    and rejects a last byte above 1. *)
#[local] Instance toy_crypto : Crypto := {|
  PrivateKey := Address;
  PublicKey := Address;
  crypto_Sign := fun _ key => inr (Address_Bytes key ++ repeat x00 45);
  crypto_SigToPub := fun _ sig =>
    if (1 <? Bytes.Z_of_byte (nth 64 sig x00))
    then inl (ErrCrypto 1)
    else inr (Slice.vcopy zero_address sig);
  crypto_PubkeyToAddress := fun pub => pub
|}.

(** ** What the code hashes, and sample inputs *)

(** What [BuildDomainSeparator] hashes: four 32-byte words and the 20 raw
    bytes of the address. *)
Definition domain_preimage (name version : string) (chainId : Z)
    (verifyingContract : Address) : list byte :=
  Keccak256_string EIP712_DOMAIN_TYPEHASH
  ++ Keccak256_string name
  ++ Keccak256_string version
  ++ be32 chainId
  ++ Address_Bytes verifyingContract.

(** What [HashMetaTx] hashes into the struct hash: the type hash, the two
    addresses as 20 raw bytes each, four 32-byte words and the hash of the
    calldata. *)
Definition struct_preimage (m : MetaTx) (amount : Z) : list byte :=
  Keccak256_string FORWARD_REQUEST_TYPEHASH
  ++ Address_Bytes (From m)
  ++ Address_Bytes (Token m)
  ++ be32 0
  ++ be32 (Gas m)
  ++ be32 (Nonce m)
  ++ be32 (Deadline m)
  ++ Keccak.Keccak256 (spec_transferCalldata (To m) amount).

(** The transfer of test vector V4, with small addresses. *)
Definition sample_MetaTx : MetaTx :=
  NewMetaTx (address_of_Z 1) (address_of_Z 3) (address_of_Z 2)
    (Some (10 ^ 18)) 100000 0 2000000000.

(** The value an outcome returns, rendered in hexadecimal. *)
Definition hex_of (o : outcome (list byte)) : option string :=
  match o with
  | Ret bs => Some (hex bs)
  | _ => None
  end.

(** The call to the primitive an element of a batch leads to: on the
    element's digest, and none when the digest cannot be computed. *)
Definition call_events (call : list byte -> Event) (metaTx : MetaTx)
    (domainSeparator : list byte) : list Event :=
  match HashMetaTx metaTx domainSeparator with
  | Ret hash => [call hash]
  | _ => []
  end.

(** The events of one element of a batch operation when nothing stops it:
    the poll, then the call to the primitive. *)
Definition element_events (call : list byte -> Event) (metaTx : MetaTx)
    (domainSeparator : list byte) : list Event :=
  EvPoll :: call_events call metaTx domainSeparator.

(** The trace of an uninterrupted signing run over [metaTxs]. *)
Definition signing_trace (metaTxs : list MetaTx) (domainSeparator : list byte)
    : list Event :=
  flat_map (fun m => element_events EvSign m domainSeparator) metaTxs.

(** The trace of an uninterrupted verification run over [batch]. *)
Definition verification_trace (batch : BatchMetaTxRequestList)
    (domainSeparator : list byte) : list Event :=
  flat_map
    (fun req =>
       element_events (fun h => EvRecover h (ToBytes (Signature_of req)))
         (MetaTx_of req) domainSeparator)
    batch.

(** [t] is an initial segment of [full]. *)
Definition prefix_of (t full : list Event) : Prop :=
  exists rest, t ++ rest = full.

(** The batch [NewMetaTxBatch] is to produce, from index [i] on: the fields
    as given, the nonce [startingNonce + i] in [uint64] arithmetic. *)
Fixpoint sequential_batch (from token : Address) (gas startingNonce deadline : Z)
    (i : nat) (recipients : list Address) (amounts : list (option Z)) : list MetaTx :=
  match recipients, amounts with
  | r :: recipients', a :: amounts' =>
      mkMetaTx from r token a gas ((startingNonce + Z.of_nat i) mod two64) deadline
      :: sequential_batch from token gas startingNonce deadline (S i) recipients' amounts'
  | _, _ => []
  end.

(** ** The rest of the package *)

(** [IsValidAddress]. *)
Definition IsValidAddress (addr : Address) : bool :=
  negb (Address_eqb addr zero_address).

(** [ValidateDeadline]; [now] is what [uint64(time.Now().Unix())] reads. *)
Definition ValidateDeadline (now deadline : Z) : option error :=
  if now >? deadline then Some ErrExpiredDeadline else None.

(** [NewMetaTxWithDelay]; the sum is a [uint64] sum. *)
Definition NewMetaTxWithDelay (now : Z) (from to token : Address)
    (amount : option Z) (gas nonce delaySeconds : Z) : MetaTx :=
  let deadline := add_uint64 now delaySeconds in
  NewMetaTx from to token amount gas nonce deadline.


Definition NewMetaTxBatchWithDefaultGas (from : Address) (recipients : list Address)
    (token : Address) (amounts : list (option Z)) (startingNonce deadline : Z)
    : outcome (list MetaTx) :=
  NewMetaTxBatch from recipients token amounts 100000 startingNonce deadline.

(** [BatchMetaTxRequestList.TotalValue]: a fresh [big.Int] zero. *)
Definition TotalValue (batch : BatchMetaTxRequestList) : Z :=
  let total := 0 in
  total.

(** [BatchMetaTxRequestList.Count]. *)
Definition Count (batch : BatchMetaTxRequestList) : nat := List.length batch.

(** The errors formatted at the call sites below, with the values they
    print and the error they wrap. *)
Inductive site_error : Type :=
| ErrDifferentFromAt (index : nat) (expected got : Address)
| ErrPrepareTransferDataAt (index : nat) (cause : error)
| ErrGenerateNonce (cause : error).

(** The loop of [ValidateBatchFromSameUser], from index [i] on. *)
Fixpoint ValidateBatchFromSameUser_from (expectedFrom : Address)
    (batch : BatchMetaTxRequestList) (i : nat) : option site_error :=
  match batch with
  | [] => None
  | req :: rest =>
      if negb (Address_eqb (From (MetaTx_of req)) expectedFrom)
      then Some (ErrDifferentFromAt i expectedFrom (From (MetaTx_of req)))
      else ValidateBatchFromSameUser_from expectedFrom rest (S i)
  end.

Definition ValidateBatchFromSameUser (batch : BatchMetaTxRequestList)
    : option site_error :=
  match batch with
  | [] => None
  | first :: _ =>
      let expectedFrom := From (MetaTx_of first) in
      ValidateBatchFromSameUser_from expectedFrom batch 0
  end.

(** A request the validation loop of [RelayMetaTxBatch] lets through when
    its reading of the clock is [now]. *)
Definition relayable (now : Z) (req : BatchMetaTxRequest) : Prop :=
  validateMetaTx (MetaTx_of req) = None /\ now <= Deadline (MetaTx_of req).

(** [RelayMetaTxBatchAtomic]: the zero address as refund receiver. *)
Definition RelayMetaTxBatchAtomic {H : Type} (clock : nat -> Z)
    (submit : BatchMetaTxRequestList -> Address -> outcome H)
    (batchRequests : BatchMetaTxRequestList) : outcome H :=
  let zeroAddress := zero_address in
  RelayMetaTxBatch clock submit batchRequests zeroAddress.

(** The anonymous struct [prepareBatchRequests] and [RelayMetaTx] fill for
    the ABI encoder: [ForwardRequestData]. *)
Module Forward.

Record Data : Type := mk {
  From : Address;
  To : Address;
  Value : Z;
  Gas : Z;
  Deadline : Z;
  Data_ : list byte;
  Signature : list byte
}.

Definition zero : Data :=
  mk zero_address zero_address 0 0 0 [] [].

End Forward.

(** What [prepareBatchRequests] does: return, fail or panic. *)
Inductive prepared (A : Type) : Type :=
| Prepared (a : A)
| PrepareFailed (e : site_error)
| PreparePanic.

Arguments Prepared {A} a.
Arguments PrepareFailed {A} e.
Arguments PreparePanic {A}.

(** The loop of [prepareBatchRequests], from index [i] on.  The slots of the
    [[]interface{}] start as nil; [Forward.zero] stands for nil. *)
Fixpoint prepareBatchRequests_loop (batchRequests : BatchMetaTxRequestList)
    (i : nat) (forwardRequestDataList : list Forward.Data) (totalValue : Z)
    : prepared (list Forward.Data * Z) :=
  match batchRequests with
  | [] => Prepared (forwardRequestDataList, totalValue)
  | req :: rest =>
      match TransferData (MetaTx_of req) with
      | Fail err => PrepareFailed (ErrPrepareTransferDataAt i err)
      | Panic => PreparePanic
      | Ret transferData =>
          let forwardRequestData :=
            Forward.mk (From (MetaTx_of req)) (Token (MetaTx_of req)) 0
              (Gas (MetaTx_of req)) (Deadline (MetaTx_of req))
              transferData (ToBytes (Signature_of req)) in
          let forwardRequestDataList :=
            Slice.store forwardRequestDataList i forwardRequestData in
          let totalValue := totalValue + Forward.Value forwardRequestData in
          prepareBatchRequests_loop rest (S i) forwardRequestDataList totalValue
      end
  end.

Definition prepareBatchRequests (batchRequests : BatchMetaTxRequestList)
    : prepared (list Forward.Data * Z) :=
  let forwardRequestDataList :=
    Slice.make Forward.zero (List.length batchRequests) in
  let totalValue := 0 in
  prepareBatchRequests_loop batchRequests 0 forwardRequestDataList totalValue.

(** A stand-in for the random source, to run [GenerateRandomNonce]: it
    draws 41 whenever that is below the bound. *)
Definition rand_Int_low (max : Z) : error + Z :=
  if 41 <? max then inr 41 else inl (ErrCrypto 2).

(** A context that is done from its second poll on. *)
Definition done_after_one : Ctx :=
  fun k => if (k <? 1)%nat then None else Some Canceled.

(** The amount of a request, 0 for nil. *)
Definition amount_of (m : MetaTx) : Z :=
  match Amount m with
  | Some a => a
  | None => 0
  end.

(** The [ForwardRequestData] a request is to become: the token as target, no
    value, the ERC-20 calldata and the 65 signature bytes. *)
Definition expected_forward (req : BatchMetaTxRequest) : Forward.Data :=
  Forward.mk (From (MetaTx_of req)) (Token (MetaTx_of req)) 0
    (Gas (MetaTx_of req)) (Deadline (MetaTx_of req))
    (spec_transferCalldata (To (MetaTx_of req)) (Z.abs (amount_of (MetaTx_of req))))
    (ToBytes (Signature_of req)).

(** An amount [TransferData] can encode. *)
Definition encodable (req : BatchMetaTxRequest) : Prop :=
  exists a, Amount (MetaTx_of req) = Some a /\ Z.abs a < two256.

(** [GenerateRandomNonce]; [rand_Int max] stands for
    [rand.Int(rand.Reader, max)], and [n.Uint64()] keeps the low 64 bits. *)
Definition GenerateRandomNonce (rand_Int : Z -> error + Z) : site_error + Z :=
  let max := 2 ^ 64 - 1 in
  match rand_Int max with
  | inl err => inl (ErrGenerateNonce err)
  | inr n => inr (n mod two64)
  end.

(** [AddressFromPrivateKey]; [public_of] is the field [privKey.PublicKey]. *)
Definition AddressFromPrivateKey `{Crypto} (public_of : PrivateKey -> PublicKey)
    (privKey : PrivateKey) : Address :=
  crypto_PubkeyToAddress (public_of privKey).

(** ** The batch operations without their effects *)

(** A traversal that stops at the first element that does not return:
    [core] is what one element does, [tag i] wraps its error at index [i]. *)
Fixpoint collect {A B : Type} (core : A -> outcome B) (tag : nat -> error -> error)
    (i : nat) (xs : list A) : outcome (list B) :=
  match xs with
  | [] => Ret []
  | x :: rest =>
      match core x with
      | Ret v =>
          match collect core tag (S i) rest with
          | Ret vs => Ret (v :: vs)
          | Fail e => Fail e
          | Panic => Panic
          end
      | Fail e => Fail (tag i e)
      | Panic => Panic
      end
  end.

Section Outcomes.
Context `{Crypto}.

(** The result of [SignMetaTx], whatever the world. *)
Definition sign_outcome (metaTx : MetaTx) (key : PrivateKey) (ds : list byte)
    : outcome Signature :=
  match HashMetaTx metaTx ds with
  | Ret hash =>
      match crypto_Sign hash key with
      | inl e => Fail (ErrSignHash e)
      | inr sigBytes =>
          match FromBytes zero_Signature sigBytes with
          | (_, Some err) => Fail (ErrParseSignature err)
          | (sig, None) => Ret sig
          end
      end
  | Fail e => Fail (ErrHashMetaTx e)
  | Panic => Panic
  end.

(** The result of [CreateBatchRequest]. *)
Definition create_outcome (key : PrivateKey) (ds : list byte) (metaTx : MetaTx)
    : outcome BatchMetaTxRequest :=
  match wrap ErrSignMetaTx (sign_outcome metaTx key ds) with
  | Ret signature => Ret (mkBatchMetaTxRequest metaTx signature)
  | Fail e => Fail e
  | Panic => Panic
  end.

(** The result of [VerifyMetaTxSignature] on a request. *)
Definition verify_outcome (ds : list byte) (req : BatchMetaTxRequest)
    : outcome bool :=
  match HashMetaTx (MetaTx_of req) ds with
  | Ret hash =>
      match crypto_SigToPub hash (ToBytes (Signature_of req)) with
      | inl e => Fail (ErrRecoverPublicKey e)
      | inr pub =>
          Ret (Address_eqb (crypto_PubkeyToAddress pub) (From (MetaTx_of req)))
      end
  | Fail e => Fail (ErrHashMetaTx e)
  | Panic => Panic
  end.

End Outcomes.

(** * Properties *)

(** ** Test vectors *)

Example keccak_empty :
  hex (Keccak.Keccak256 []) =
  "c5d2460186f7233c927e7db2dcc703c0e500b653ca82273b7bfad8045d85a470"%string.
Proof. vm_compute. reflexivity. Qed.

Example keccak_domain_typehash :
  hex (Keccak256_string EIP712_DOMAIN_TYPEHASH) =
  "8b73c3c69bb8fe3d512ecc4cf759cc79239f7b179b0ffacaa9a75d522b39400f"%string.
Proof. vm_compute. reflexivity. Qed.

(** Two and three blocks of the sponge. *)
Example keccak_two_blocks :
  hex (Keccak.Keccak256 (repeat x61 136)) =
  "a6c4d403279fe3e0af03729caada8374b5ca54d8065329a3ebcaeb4b60aa386e"%string.
Proof. vm_compute. reflexivity. Qed.

Example keccak_three_blocks :
  hex (Keccak.Keccak256 (repeat x61 300)) =
  "5b7e0e47a96f32a88b4f14ca177982790807c40e1a105742ba0fc1babe1ef826"%string.
Proof. vm_compute. reflexivity. Qed.

(** ** Slices and bytes *)

Section SliceFacts.
Context {A : Type}.

Lemma copy_same_length (dst src : list A) :
  List.length dst = List.length src -> Slice.copy dst src = src.
Proof.
  revert src; induction dst as [|d dst IH]; intros [|x src] Hlen;
    simpl in *; try discriminate; try reflexivity.
  f_equal. apply IH. now injection Hlen.
Qed.

Lemma store_length (l : list A) (i : nat) (v : A) :
  List.length (Slice.store l i v) = List.length l.
Proof.
  revert i; induction l as [|d l IH]; intros [|i]; simpl; auto.
Qed.

Lemma store_app_tail (a b : list A) (v : A) :
  Slice.store (a ++ b) (List.length a) v = a ++ Slice.store b 0 v.
Proof.
  induction a as [|x a IH]; simpl.
  - reflexivity.
  - now rewrite IH.
Qed.

(** Storing just past a filled prefix: the prefix grows by one. *)
Lemma store_next (done : list A) (old : A) (rest : list A) (v : A) :
  Slice.store (done ++ old :: rest) (List.length done) v = (done ++ [v]) ++ rest.
Proof.
  rewrite store_app_tail. simpl. now rewrite <- app_assoc.
Qed.

Lemma vcopy_to_list (rest : list A) :
  forall (n : nat) (dst v : Vector.t A n),
    Slice.vcopy dst (Vector.to_list v ++ rest) = v.
Proof.
  refine (@Vector.rect2 _ _ _ _ _); [reflexivity|].
  intros k d v IH x y. rewrite Vector.to_list_cons. simpl. now rewrite IH.
Qed.

End SliceFacts.

Lemma be_bytes_length (n : nat) (v : Z) :
  List.length (Bytes.be_bytes n v) = n.
Proof.
  revert v; induction n as [|n IH]; intros v; simpl.
  - reflexivity.
  - rewrite length_app, IH. simpl. lia.
Qed.

Lemma Z_of_byte_of_Z (z : Z) :
  Bytes.Z_of_byte (Bytes.byte_of_Z z) = z mod 256.
Proof.
  unfold Bytes.Z_of_byte, Bytes.byte_of_Z, Bytes.byte_of_N.
  assert (Hr : 0 <= z mod 256 < 256) by (apply Z.mod_pos_bound; lia).
  set (n := Z.to_N (z mod 256)).
  assert (Hn : (n < 256)%N) by (subst n; lia).
  rewrite N.mod_small by exact Hn.
  destruct (Byte.of_N n) as [b|] eqn:E.
  - apply Byte.to_of_N in E. rewrite E. subst n. lia.
  - pose proof (Byte.to_of_N_option_map n) as Hm. rewrite E in Hm. simpl in Hm.
    destruct (N.leb n 255) eqn:L; [discriminate|].
    apply N.leb_gt in L. lia.
Qed.

Lemma be_value_app (bs : list byte) (b : byte) :
  Bytes.be_value (bs ++ [b]) = 256 * Bytes.be_value bs + Bytes.Z_of_byte b.
Proof.
  unfold Bytes.be_value. now rewrite fold_left_app.
Qed.

(** [be_bytes] is the big-endian representation: reading it back gives the
    number. *)
Lemma be_value_be_bytes (n : nat) (v : Z) :
  0 <= v < 256 ^ Z.of_nat n -> Bytes.be_value (Bytes.be_bytes n v) = v.
Proof.
  revert v; induction n as [|n IH]; intros v Hv.
  - simpl in *. unfold Bytes.be_value. simpl. lia.
  - simpl Bytes.be_bytes. rewrite be_value_app, Z_of_byte_of_Z.
    rewrite IH.
    + pose proof (Z.div_mod v 256). lia.
    + rewrite Nat2Z.inj_succ, Z.pow_succ_r in Hv by lia.
      split; [apply Z.div_pos; lia|].
      apply Z.div_lt_upper_bound; lia.
Qed.

Lemma Keccak256_length (msg : list byte) :
  List.length (Keccak.Keccak256 msg) = 32%nat.
Proof.
  unfold Keccak.Keccak256. now rewrite length_map, length_seq.
Qed.

Lemma Address_Bytes_length (a : Address) : List.length (Address_Bytes a) = 20%nat.
Proof. apply Vector.length_to_list. Qed.

Lemma Address_eqb_eq (a b : Address) : Address_eqb a b = true <-> a = b.
Proof.
  unfold Address_eqb. apply VectorEq.eqb_eq.
  intros x y; split; [apply Byte.byte_dec_bl | apply Byte.byte_dec_lb].
Qed.

Lemma FillBytes_in_range (v : Z) (n : nat) :
  0 <= v < 256 ^ Z.of_nat n ->
  FillBytes (Some v) (Bytes.make n) = Ret (Bytes.be_bytes n v).
Proof.
  intros Hv. unfold FillBytes, Bytes.make, Slice.make.
  rewrite repeat_length, Z.abs_eq by lia.
  destruct (v <? 256 ^ Z.of_nat n) eqn:E; [reflexivity|].
  apply Z.ltb_ge in E. lia.
Qed.

Lemma FillBytes_never_fails (x : option Z) (buf : list byte) (e : error) :
  FillBytes x buf <> Fail e.
Proof.
  unfold FillBytes. destruct x as [v|]; [|discriminate].
  destruct (Z.abs v <? _); discriminate.
Qed.

(** ** The signature record *)

Lemma copy_into_prefix {A : Type} (zero : A) (pre src : list A) (m : nat) :
  Slice.copy_into (pre ++ Slice.make zero (List.length src + m))
    (List.length pre) (List.length pre + List.length src) src
  = (pre ++ src) ++ Slice.make zero m.
Proof.
  unfold Slice.copy_into, Slice.slice, Slice.make.
  rewrite firstn_app, Nat.sub_diag, firstn_all. simpl firstn. rewrite app_nil_r.
  rewrite !skipn_app.
  rewrite (skipn_all2 pre) by lia.
  rewrite (skipn_all2 (n := List.length pre + List.length src) pre) by lia.
  rewrite Nat.sub_diag. simpl skipn at 1. simpl app.
  replace (List.length pre + List.length src - List.length pre)%nat
    with (List.length src) by lia.
  rewrite repeat_app, firstn_app, repeat_length, Nat.sub_diag.
  rewrite firstn_all2 by (rewrite repeat_length; lia).
  simpl firstn. rewrite app_nil_r.
  rewrite copy_same_length by (now rewrite repeat_length).
  rewrite skipn_app, repeat_length, Nat.sub_diag.
  rewrite skipn_all2 by (rewrite repeat_length; lia).
  simpl. now rewrite <- app_assoc.
Qed.

Lemma ToBytes_layout (s : Signature) :
  ToBytes s = Vector.to_list (SigR s) ++ Vector.to_list (SigS s) ++ [SigV s].
Proof.
  unfold ToBytes, Bytes.make.
  set (r := Vector.to_list (SigR s)). set (t := Vector.to_list (SigS s)).
  assert (Hr : List.length r = 32%nat) by apply Vector.length_to_list.
  assert (Ht : List.length t = 32%nat) by apply Vector.length_to_list.
  pose proof (copy_into_prefix x00 [] r 33) as E1.
  rewrite Hr in E1. simpl in E1. simpl. rewrite E1.
  pose proof (copy_into_prefix x00 r t 1) as E2.
  rewrite Hr, Ht in E2. simpl in E2. rewrite E2.
  replace 64%nat with (List.length (r ++ t)) by (rewrite length_app; lia).
  rewrite store_app_tail. simpl. now rewrite <- app_assoc.
Qed.

Lemma ToBytes_length (s : Signature) : List.length (ToBytes s) = 65%nat.
Proof.
  rewrite ToBytes_layout, !length_app, !Vector.length_to_list. reflexivity.
Qed.

Lemma FromBytes_layout (s0 : Signature) (r t : Vector.t byte 32) (v : byte) :
  FromBytes s0 (Vector.to_list r ++ Vector.to_list t ++ [v])
  = (mkSignature v r t, None).
Proof.
  unfold FromBytes, Slice.slice.
  pose proof (Vector.length_to_list _ _ r) as Hr.
  pose proof (Vector.length_to_list _ _ t) as Ht.
  rewrite !length_app, Hr, Ht. simpl negb. cbv iota.
  cbn [SigV SigR SigS].
  change (32 - 0)%nat with 32%nat. change (64 - 32)%nat with 32%nat.
  rewrite skipn_O.
  f_equal. f_equal.
  - rewrite app_assoc, app_nth2 by (rewrite length_app; lia).
    rewrite length_app, Hr, Ht. reflexivity.
  - rewrite firstn_app, Hr, Nat.sub_diag, firstn_O.
    rewrite firstn_all2 by lia.
    apply vcopy_to_list.
  - rewrite skipn_app, Hr, Nat.sub_diag, skipn_O.
    rewrite skipn_all2 by lia. rewrite app_nil_l.
    rewrite firstn_app, Ht, Nat.sub_diag, firstn_O.
    rewrite firstn_all2 by lia.
    apply vcopy_to_list.
Qed.

(** C4.  For every signature [s], whatever the receiver [s0] held before:
    [ToBytes s] is the 65 bytes [r || s || v], and [FromBytes] on them
    succeeds and leaves exactly [s] in the receiver. *)
Theorem Signature_bytes_roundtrip (s s0 : Signature) :
  ToBytes s = Vector.to_list (SigR s) ++ Vector.to_list (SigS s) ++ [SigV s]
  /\ List.length (ToBytes s) = 65%nat
  /\ FromBytes s0 (ToBytes s) = (s, None).
Proof.
  split; [apply ToBytes_layout|].
  split; [apply ToBytes_length|].
  rewrite ToBytes_layout, FromBytes_layout. now destruct s.
Qed.

(** C5.  [FromBytes] on a byte string whose length is not 65 returns
    [ErrInvalidSignatureLength] and leaves the receiver as it was; on a
    byte string of length 65 it returns no error. *)
Theorem FromBytes_length_check (s : Signature) (data : list byte) :
  (List.length data <> 65%nat ->
     FromBytes s data = (s, Some ErrInvalidSignatureLength))
  /\ (List.length data = 65%nat -> snd (FromBytes s data) = None).
Proof.
  unfold FromBytes. split; intros Hlen.
  - apply Nat.eqb_neq in Hlen. now rewrite Hlen.
  - rewrite Hlen. reflexivity.
Qed.

Lemma FromBytes_length_check_witness :
  FromBytes zero_Signature [x01; x02]
    = (zero_Signature, Some ErrInvalidSignatureLength)
  /\ snd (FromBytes zero_Signature (repeat x07 65)) = None.
Proof.
  split.
  - apply (proj1 (FromBytes_length_check zero_Signature [x01; x02])).
    simpl. lia.
  - apply (proj2 (FromBytes_length_check zero_Signature (repeat x07 65))).
    reflexivity.
Defined.

(** ** Transfer calldata *)

Lemma pow256_32 : 256 ^ Z.of_nat 32 = two256.
Proof. reflexivity. Qed.

Lemma transfer_selector_eq :
  firstn 4 (Keccak256_string "transfer(address,uint256)") = transfer_selector.
Proof. vm_compute. reflexivity. Qed.

Lemma leftpad32_copy (a : Address) :
  Slice.copy_into (Bytes.make 32) 12 32 (Address_Bytes a) = leftpad32 a.
Proof.
  pose proof (copy_into_prefix x00 (repeat x00 12) (Address_Bytes a) 0) as E.
  rewrite Address_Bytes_length, repeat_length in E. simpl Nat.add in E.
  unfold leftpad32, Bytes.make. unfold Slice.make in *.
  rewrite <- repeat_app in E. simpl Nat.add in E.
  rewrite E. simpl repeat at 2. now rewrite app_nil_r.
Qed.

Lemma TransferData_in_range (m : MetaTx) (a : Z) :
  Amount m = Some a -> 0 <= a < two256 ->
  TransferData m = Ret (spec_transferCalldata (To m) a).
Proof.
  intros Ha Hr. unfold TransferData.
  rewrite transfer_selector_eq, leftpad32_copy, Ha.
  rewrite FillBytes_in_range by (rewrite pow256_32; exact Hr).
  unfold bind, spec_transferCalldata, be32.
  change ([] ++ transfer_selector) with transfer_selector.
  now rewrite <- app_assoc.
Qed.

Lemma spec_transferCalldata_length (to : Address) (a : Z) :
  List.length (spec_transferCalldata to a) = 68%nat.
Proof.
  unfold spec_transferCalldata, leftpad32, be32.
  rewrite !length_app, be_bytes_length, Address_Bytes_length. reflexivity.
Qed.

(** C3.  For a recipient [To m] and an amount [0 <= a < 2^256],
    [TransferData] returns [selector || leftpad32(to) || be32(a)]; the
    selector is the first four bytes of the Keccak-256 hash of
    [transfer(address,uint256)], that is [a9 05 9c bb]; the result has 68
    bytes; and [be32 a] read back as a big-endian number is [a]. *)
Theorem TransferData_layout (m : MetaTx) (a : Z) :
  Amount m = Some a -> 0 <= a < two256 ->
  TransferData m = Ret (transfer_selector ++ leftpad32 (To m) ++ be32 a)
  /\ transfer_selector = firstn 4 (Keccak256_string "transfer(address,uint256)")
  /\ transfer_selector = [xa9; x05; x9c; xbb]
  /\ List.length (transfer_selector ++ leftpad32 (To m) ++ be32 a) = 68%nat
  /\ Bytes.be_value (be32 a) = a.
Proof.
  intros Ha Hr.
  split; [|split; [|split; [|split]]].
  - now apply TransferData_in_range.
  - symmetry. apply transfer_selector_eq.
  - reflexivity.
  - apply spec_transferCalldata_length.
  - apply be_value_be_bytes. now rewrite pow256_32.
Qed.

Lemma TransferData_layout_witness :
  TransferData (NewMetaTx zero_address (address_of_Z 1) zero_address (Some 1) 100000 0 1)
  = Ret (transfer_selector ++ leftpad32 (address_of_Z 1) ++ be32 1).
Proof.
  apply (proj1 (TransferData_layout
           (NewMetaTx zero_address (address_of_Z 1) zero_address (Some 1) 100000 0 1)
           1 eq_refl (conj (Z.le_0_1) eq_refl))).
Defined.

(** ** EIP-712 hashing *)

Lemma be32_zero : be32 0 = Bytes.make 32.
Proof. reflexivity. Qed.

Lemma uint64_fits (v : Z) : is_uint64 v -> 0 <= v < 256 ^ Z.of_nat 32.
Proof.
  unfold is_uint64, two64. rewrite pow256_32. unfold two256.
  intros [Hlo Hhi]. split; [exact Hlo|].
  eapply Z.lt_trans; [exact Hhi|]. reflexivity.
Qed.

Lemma BuildDomainSeparator_in_range (name version : string) (c : Z) (vc : Address) :
  0 <= c < two256 ->
  BuildDomainSeparator name version (Some c) vc
  = Ret (Keccak.Keccak256 (domain_preimage name version c vc))
  /\ List.length (domain_preimage name version c vc) = 148%nat.
Proof.
  intros Hc. split.
  - unfold BuildDomainSeparator.
    rewrite FillBytes_in_range by (rewrite pow256_32; exact Hc).
    unfold bind, domain_preimage, be32. rewrite app_nil_l.
    now rewrite <- !app_assoc.
  - unfold domain_preimage, Keccak256_string, be32.
    rewrite !length_app, !Keccak256_length, be_bytes_length, Address_Bytes_length.
    reflexivity.
Qed.

Lemma HashMetaTx_in_range (m : MetaTx) (a : Z) (ds : list byte) :
  Amount m = Some a -> 0 <= a < two256 -> MetaTx_wf m ->
  HashMetaTx m ds
  = Ret (Keccak.Keccak256
           ([x19; x01] ++ ds ++ Keccak.Keccak256 (struct_preimage m a))).
Proof.
  intros Ha Hr (Hg & Hn & Hd). unfold HashMetaTx.
  rewrite (TransferData_in_range m a Ha Hr). unfold wrap, bind, SetUint64.
  rewrite !FillBytes_in_range by (now apply uint64_fits).
  unfold struct_preimage. rewrite be32_zero. fold (be32 (Gas m)).
  fold (be32 (Nonce m)). fold (be32 (Deadline m)).
  rewrite !app_nil_l. now rewrite <- !app_assoc.
Qed.

Lemma struct_preimage_length (m : MetaTx) (a : Z) :
  List.length (struct_preimage m a) = 232%nat.
Proof.
  unfold struct_preimage, Keccak256_string, be32.
  rewrite !length_app, !Keccak256_length, !be_bytes_length, !Address_Bytes_length.
  reflexivity.
Qed.

Lemma TransferData_never_fails (m : MetaTx) (e : error) : TransferData m <> Fail e.
Proof.
  unfold TransferData.
  destruct (FillBytes (Amount m) (Bytes.make 32)) as [b|e'|] eqn:E; cbn [bind wrap];
    [discriminate|now apply FillBytes_never_fails in E|discriminate].
Qed.

Lemma HashMetaTx_never_fails (m : MetaTx) (ds : list byte) (e : error) :
  HashMetaTx m ds <> Fail e.
Proof.
  unfold HashMetaTx.
  destruct (TransferData m) as [td|e'|] eqn:Etd; cbn [bind wrap];
    [|now apply TransferData_never_fails in Etd|discriminate].
  destruct (FillBytes (SetUint64 (Gas m)) (Bytes.make 32)) as [g|e'|] eqn:Eg; cbn [bind wrap];
    [|now apply FillBytes_never_fails in Eg|discriminate].
  destruct (FillBytes (SetUint64 (Nonce m)) (Bytes.make 32)) as [n|e'|] eqn:En; cbn [bind wrap];
    [|now apply FillBytes_never_fails in En|discriminate].
  destruct (FillBytes (SetUint64 (Deadline m)) (Bytes.make 32)) as [d|e'|] eqn:Ed; cbn [bind wrap];
    [discriminate|now apply FillBytes_never_fails in Ed|discriminate].
Qed.

(** C10.  For a [MetaTx] whose amount is a non-nil integer in
    [0, 2^256) (its [uint64] fields holding [uint64] values), [TransferData]
    and [HashMetaTx] return a value, and [HashMetaTx] does so for a domain
    separator of any length, the digest having 32 bytes.  Neither function
    returns an error on any input at all. *)
Theorem hashing_never_errors (m : MetaTx) (a : Z) (domainSeparator : list byte) :
  Amount m = Some a -> 0 <= a < two256 -> MetaTx_wf m ->
  (exists data, TransferData m = Ret data)
  /\ (exists digest,
        HashMetaTx m domainSeparator = Ret digest /\ List.length digest = 32%nat)
  /\ (forall m' e, TransferData m' <> Fail e)
  /\ (forall m' ds e, HashMetaTx m' ds <> Fail e).
Proof.
  intros Ha Hr Hwf.
  split; [eexists; exact (TransferData_in_range m a Ha Hr)|].
  split.
  - eexists. split; [exact (HashMetaTx_in_range m a _ Ha Hr Hwf)|].
    apply Keccak256_length.
  - split; [exact TransferData_never_fails | exact HashMetaTx_never_fails].
Qed.

Lemma sample_MetaTx_wf : MetaTx_wf sample_MetaTx.
Proof. unfold MetaTx_wf, is_uint64, two64. simpl. lia. Qed.

Lemma hashing_never_errors_witness :
  exists digest,
    HashMetaTx sample_MetaTx [x00; x01; x02] = Ret digest
    /\ List.length digest = 32%nat.
Proof.
  refine (proj1 (proj2 (hashing_never_errors sample_MetaTx (10 ^ 18)
                          [x00; x01; x02] eq_refl _ _))).
  - unfold two256. lia.
  - unfold MetaTx_wf, is_uint64, two64. simpl. lia.
Defined.

(** C1, at test vector V3.  [BuildDomainSeparator] hashes 148 bytes, the
    contract address entering as its 20 raw bytes; the specified separator
    hashes 160 bytes, the address left-padded to 32, and is another value. *)
Theorem BuildDomainSeparator_V3 :
  BuildDomainSeparator "ERC2771Forwarder" "1" (Some 1) (address_of_Z 1)
  = Ret (Keccak.Keccak256 (domain_preimage "ERC2771Forwarder" "1" 1 (address_of_Z 1)))
  /\ List.length (domain_preimage "ERC2771Forwarder" "1" 1 (address_of_Z 1)) = 148%nat
  /\ hex_of (BuildDomainSeparator "ERC2771Forwarder" "1" (Some 1) (address_of_Z 1))
     = Some "788d99e2d4a69c16147c498e498a4bb81997c48276f0a48bb6fd5787924c0e77"%string
  /\ hex (spec_domainSeparator "ERC2771Forwarder" "1" 1 (address_of_Z 1))
     = "35bd26793e9b7b300ef6bbc89fb8c2955eda037fcc51aa0572acf372c3336f83"%string.
Proof.
  split; [|split; [|split]].
  - apply BuildDomainSeparator_in_range. unfold two256. lia.
  - apply BuildDomainSeparator_in_range. unfold two256. lia.
  - vm_compute. reflexivity.
  - vm_compute. reflexivity.
Qed.

(** C2, at the transfer of test vector V4 under the domain of V3.
    [HashMetaTx] hashes a 232-byte struct encoding in which [from] and
    [token] enter as 20 raw bytes each; the specified struct hash is over
    eight 32-byte words with both addresses left-padded, and the two digests
    differ. *)
Theorem HashMetaTx_V4 :
  let ds := spec_domainSeparator "ERC2771Forwarder" "1" 1 (address_of_Z 1) in
  HashMetaTx sample_MetaTx ds
  = Ret (Keccak.Keccak256
           ([x19; x01] ++ ds
            ++ Keccak.Keccak256 (struct_preimage sample_MetaTx (10 ^ 18))))
  /\ List.length (struct_preimage sample_MetaTx (10 ^ 18)) = 232%nat
  /\ hex_of (HashMetaTx sample_MetaTx ds)
     = Some "3f42cff7a8ec217f159a4a271c843f1e926ec281fa3f509b98cf8904cd481eb3"%string
  /\ hex (spec_digest sample_MetaTx (10 ^ 18) ds)
     = "c3c1607c682895bd14d05ae96414c80b31ef002d9dd7fa7c79e9535e1912911f"%string.
Proof.
  intros ds. split; [|split; [|split]].
  - apply HashMetaTx_in_range; [reflexivity| |apply sample_MetaTx_wf].
    unfold two256. lia.
  - apply struct_preimage_length.
  - vm_compute. reflexivity.
  - vm_compute. reflexivity.
Qed.

(** ** Batches of sequential nonces *)

Lemma add_uint64_index (start : Z) (i : nat) :
  add_uint64 start (uint64_of_int i) = (start + Z.of_nat i) mod two64.
Proof.
  unfold add_uint64, uint64_of_int. apply Zplus_mod_idemp_r.
Qed.

Lemma index_app_next {A : Type} (done : list A) (x : A) (rest : list A) :
  index (done ++ x :: rest) (List.length done) = Ret x.
Proof.
  unfold index. rewrite nth_error_app2 by lia. now rewrite Nat.sub_diag.
Qed.

Section BatchConstruction.
Variables (from token : Address) (gas startingNonce deadline : Z).

Lemma NewMetaTxBatch_loop_spec (recipients : list Address) (amounts : list (option Z)) :
  forall (todo : nat) (rs_done rs_todo : list Address)
         (as_done as_todo : list (option Z)) (done : list MetaTx),
    recipients = rs_done ++ rs_todo ->
    amounts = as_done ++ as_todo ->
    List.length rs_todo = todo ->
    List.length as_todo = todo ->
    List.length as_done = List.length rs_done ->
    List.length done = List.length rs_done ->
    NewMetaTxBatch_loop from recipients token amounts gas startingNonce deadline
      todo (List.length rs_done) (done ++ Slice.make zero_MetaTx todo)
    = Ret (done ++ sequential_batch from token gas startingNonce deadline
                     (List.length rs_done) rs_todo as_todo).
Proof.
  induction todo as [|todo IH]; intros rs_done rs_todo as_done as_todo done
    Hr Ha Hlr Hla Hdone_a Hdone.
  - destruct rs_todo; [|discriminate]. reflexivity.
  - destruct rs_todo as [|r rs_todo]; [discriminate|].
    destruct as_todo as [|a as_todo]; [discriminate|].
    simpl NewMetaTxBatch_loop.
    rewrite Hr at 1. rewrite index_app_next. cbn [bind].
    rewrite Ha at 1. rewrite <- Hdone_a, index_app_next. cbn [bind].
    rewrite Hdone_a, <- Hdone, store_next, Hdone.
    specialize (IH (rs_done ++ [r]) rs_todo (as_done ++ [a]) as_todo
                   (done ++ [NewMetaTx from r token a gas
                               (add_uint64 startingNonce
                                  (uint64_of_int (List.length rs_done)))
                               deadline])).
    rewrite !length_app in IH. simpl List.length in IH.
    rewrite !Nat.add_1_r in IH.
    rewrite IH.
    + simpl sequential_batch. unfold NewMetaTx. rewrite add_uint64_index.
      now rewrite <- app_assoc.
    + now rewrite <- app_assoc.
    + now rewrite <- app_assoc.
    + simpl in Hlr. lia.
    + simpl in Hla. lia.
    + lia.
    + lia.
Qed.

Lemma NewMetaTxBatch_equal_lengths (recipients : list Address)
    (amounts : list (option Z)) :
  List.length recipients = List.length amounts ->
  NewMetaTxBatch from recipients token amounts gas startingNonce deadline
  = Ret (sequential_batch from token gas startingNonce deadline 0 recipients amounts).
Proof.
  intros Hlen. unfold NewMetaTxBatch.
  rewrite Hlen, Nat.eqb_refl. cbn [negb]. rewrite <- Hlen.
  exact (NewMetaTxBatch_loop_spec recipients amounts (List.length recipients)
           [] recipients [] amounts [] eq_refl eq_refl eq_refl (eq_sym Hlen)
           eq_refl eq_refl).
Qed.

Lemma NewMetaTxBatch_mismatch (recipients : list Address) (amounts : list (option Z)) :
  List.length recipients <> List.length amounts ->
  NewMetaTxBatch from recipients token amounts gas startingNonce deadline
  = Fail (ErrRecipientsAmountsMismatch (List.length recipients) (List.length amounts)).
Proof.
  intros Hlen. unfold NewMetaTxBatch.
  apply Nat.eqb_neq in Hlen. now rewrite Hlen.
Qed.

Lemma sequential_batch_length (recipients : list Address) (amounts : list (option Z)) :
  forall i, List.length recipients = List.length amounts ->
  List.length (sequential_batch from token gas startingNonce deadline i recipients amounts)
  = List.length recipients.
Proof.
  revert amounts; induction recipients as [|r rs IH]; intros [|a amounts] i Hlen;
    simpl in *; try discriminate; auto.
Qed.

Lemma sequential_batch_nth (recipients : list Address) (amounts : list (option Z)) :
  forall i k r a,
    nth_error recipients k = Some r ->
    nth_error amounts k = Some a ->
    nth_error (sequential_batch from token gas startingNonce deadline i recipients amounts) k
    = Some (mkMetaTx from r token a gas
              ((startingNonce + Z.of_nat (i + k)) mod two64) deadline).
Proof.
  revert amounts; induction recipients as [|r0 rs IH]; intros [|a0 amounts] i k r a Hr Ha;
    try (destruct k; discriminate).
  destruct k as [|k]; simpl in *.
  - injection Hr as <-. injection Ha as <-. now rewrite Nat.add_0_r.
  - rewrite (IH amounts (S i) k r a Hr Ha).
    now replace (S i + k)%nat with (i + S k)%nat by lia.
Qed.

End BatchConstruction.

Lemma ValidateBatchNonces_from_ok (batch : BatchMetaTxRequestList) (start : Z) :
  forall i,
    ValidateBatchNonces_from batch i start = None <->
    (forall k req, nth_error batch k = Some req ->
                   Nonce (MetaTx_of req) = (start + Z.of_nat (i + k)) mod two64).
Proof.
  induction batch as [|req0 rest IH]; intros i; simpl.
  - split; [|reflexivity]. intros _ [|k] req; discriminate.
  - rewrite add_uint64_index.
    destruct (Nonce (MetaTx_of req0) =? (start + Z.of_nat i) mod two64) eqn:E; simpl.
    + apply Z.eqb_eq in E. rewrite IH. split.
      * intros Hrest [|k] req Hk; simpl in Hk.
        -- injection Hk as <-. now rewrite Nat.add_0_r.
        -- rewrite (Hrest k req Hk).
           now replace (S i + k)%nat with (i + S k)%nat by lia.
      * intros Hall k req Hk. rewrite (Hall (S k) req Hk).
        now replace (S i + k)%nat with (i + S k)%nat by lia.
    + apply Z.eqb_neq in E. split; [discriminate|].
      intros Hall. exfalso. apply E.
      rewrite (Hall 0%nat req0 eq_refl). now rewrite Nat.add_0_r.
Qed.

Lemma ValidateBatchNonces_from_first (batch : BatchMetaTxRequestList) (start : Z) :
  forall i err,
    ValidateBatchNonces_from batch i start = Some err <->
    (exists k req,
        nth_error batch k = Some req
        /\ Nonce (MetaTx_of req) <> (start + Z.of_nat (i + k)) mod two64
        /\ (forall j req', (j < k)%nat -> nth_error batch j = Some req' ->
              Nonce (MetaTx_of req') = (start + Z.of_nat (i + j)) mod two64)
        /\ err = ErrNonceAt (i + k) ((start + Z.of_nat (i + k)) mod two64)
                   (Nonce (MetaTx_of req))).
Proof.
  induction batch as [|req0 rest IH]; intros i err; simpl.
  - split; [discriminate|]. intros ([|k] & req & Hk & _); discriminate.
  - rewrite add_uint64_index.
    destruct (Nonce (MetaTx_of req0) =? (start + Z.of_nat i) mod two64) eqn:E; simpl.
    + apply Z.eqb_eq in E. rewrite IH. split.
      * intros (k & req & Hk & Hne & Hbefore & Herr).
        exists (S k), req. replace (i + S k)%nat with (S i + k)%nat by lia.
        split; [exact Hk|]. split; [exact Hne|]. split; [|exact Herr].
        intros [|j] req' Hj Hnth; simpl in Hnth.
        -- injection Hnth as <-. now rewrite Nat.add_0_r.
        -- replace (i + S j)%nat with (S i + j)%nat by lia.
           apply Hbefore; [lia|exact Hnth].
      * intros ([|k] & req & Hk & Hne & Hbefore & Herr); simpl in Hk.
        -- injection Hk as <-. rewrite Nat.add_0_r in Hne. contradiction.
        -- exists k, req. replace (S i + k)%nat with (i + S k)%nat by lia.
           split; [exact Hk|]. split; [exact Hne|]. split; [|exact Herr].
           intros j req' Hj Hnth.
           replace (i + S j)%nat with (i + S j)%nat by lia.
           specialize (Hbefore (S j) req'). simpl in Hbefore.
           replace (S i + j)%nat with (i + S j)%nat by lia.
           apply Hbefore; [lia|exact Hnth].
    + apply Z.eqb_neq in E. split.
      * intros Herr. injection Herr as <-.
        exists 0%nat, req0. rewrite Nat.add_0_r.
        split; [reflexivity|]. split; [exact E|]. split; [|reflexivity].
        intros j req' Hj. lia.
      * intros ([|k] & req & Hk & Hne & Hbefore & Herr); simpl in Hk.
        -- injection Hk as <-. rewrite Nat.add_0_r in Herr. now rewrite Herr.
        -- exfalso. apply E.
           rewrite (Hbefore 0%nat req0 ltac:(lia) eq_refl). now rewrite Nat.add_0_r.
Qed.

Lemma map_nth_error_inv {A B : Type} (f : A -> B) (l : list A) (k : nat) (a : A) :
  nth_error l k = Some a -> nth_error (List.map f l) k = Some (f a).
Proof. intros Hk. now rewrite nth_error_map, Hk. Qed.

(** ** Signing and verification *)

Lemma skipn_app_length {A : Type} (l d : list A) :
  skipn (List.length l) (l ++ d) = d.
Proof.
  rewrite skipn_app, Nat.sub_diag, skipn_all. reflexivity.
Qed.

Lemma world_eta (w : World) : mkWorld (polls w) (trace w ++ []) = w.
Proof. destruct w. simpl. now rewrite app_nil_r. Qed.

Section SigningFacts.
Context `{C : Crypto}.

Lemma VerifyMetaTxSignature_run (metaTx : MetaTx) (sig : Signature)
    (ds : list byte) (w : World) :
  VerifyMetaTxSignature metaTx sig ds w
  = match HashMetaTx metaTx ds with
    | Ret hash =>
        (match crypto_SigToPub hash (ToBytes sig) with
         | inl e => Fail (ErrRecoverPublicKey e)
         | inr pub => Ret (Address_eqb (crypto_PubkeyToAddress pub) (From metaTx))
         end,
         mkWorld (polls w) (trace w ++ [EvRecover hash (ToBytes sig)]))
    | Fail e => (Fail (ErrHashMetaTx e), w)
    | Panic => (Panic, w)
    end.
Proof.
  unfold VerifyMetaTxSignature, bindM, lift, emit, retM.
  destruct (HashMetaTx metaTx ds) as [hash|e|]; cbn [wrap]; try reflexivity.
  destruct (crypto_SigToPub hash (ToBytes sig)) as [e|pub]; reflexivity.
Qed.

Lemma SignMetaTx_run (metaTx : MetaTx) (key : PrivateKey) (ds : list byte)
    (w : World) :
  SignMetaTx metaTx key ds w
  = match HashMetaTx metaTx ds with
    | Ret hash =>
        (match crypto_Sign hash key with
         | inl e => Fail (ErrSignHash e)
         | inr sigBytes =>
             match FromBytes zero_Signature sigBytes with
             | (_, Some err) => Fail (ErrParseSignature err)
             | (sig, None) => Ret sig
             end
         end,
         mkWorld (polls w) (trace w ++ [EvSign hash]))
    | Fail e => (Fail (ErrHashMetaTx e), w)
    | Panic => (Panic, w)
    end.
Proof.
  unfold SignMetaTx, bindM, lift, emit, retM.
  destruct (HashMetaTx metaTx ds) as [hash|e|]; cbn [wrap]; try reflexivity.
  destruct (crypto_Sign hash key) as [e|sigBytes]; cbn [of_result wrap];
    try reflexivity.
  destruct (FromBytes zero_Signature sigBytes) as [sig [err|]]; reflexivity.
Qed.

(** C7.  [VerifyMetaTxSignature] returns a boolean exactly when the digest
    exists and the recovery primitive accepts the 65 signature bytes, and the
    boolean says whether the recovered address is [From]; it returns an error
    exactly when the recovery primitive rejects them, the error being the
    primitive's, wrapped.  An address that does not match is the result
    [false], never an error. *)
Theorem VerifyMetaTxSignature_result (metaTx : MetaTx) (sig : Signature)
    (domainSeparator : list byte) (w : World) :
  (forall b,
     fst (VerifyMetaTxSignature metaTx sig domainSeparator w) = Ret b <->
     exists hash pub,
       HashMetaTx metaTx domainSeparator = Ret hash
       /\ crypto_SigToPub hash (ToBytes sig) = inr pub
       /\ b = Address_eqb (crypto_PubkeyToAddress pub) (From metaTx))
  /\ (forall err,
        fst (VerifyMetaTxSignature metaTx sig domainSeparator w) = Fail err <->
        exists hash e,
          HashMetaTx metaTx domainSeparator = Ret hash
          /\ crypto_SigToPub hash (ToBytes sig) = inl e
          /\ err = ErrRecoverPublicKey e)
  /\ (forall a b : Address, Address_eqb a b = true <-> a = b)
  /\ List.length (ToBytes sig) = 65%nat.
Proof.
  rewrite VerifyMetaTxSignature_run.
  split; [|split; [|split; [exact Address_eqb_eq | apply ToBytes_length]]].
  - intros b. destruct (HashMetaTx metaTx domainSeparator) as [hash|e|] eqn:Eh;
      cbn [fst].
    + destruct (crypto_SigToPub hash (ToBytes sig)) as [e|pub] eqn:Ep; split.
      * discriminate.
      * intros (h' & pub & Hh & Hp & _). injection Hh as <-. congruence.
      * intros Hb. injection Hb as <-. now exists hash, pub.
      * intros (h' & pub' & Hh & Hp & ->). injection Hh as <-.
        rewrite Ep in Hp. now injection Hp as <-.
    + now apply HashMetaTx_never_fails in Eh.
    + split; [discriminate|]. intros (h' & pub & Hh & _). discriminate.
  - intros err. destruct (HashMetaTx metaTx domainSeparator) as [hash|e|] eqn:Eh;
      cbn [fst].
    + destruct (crypto_SigToPub hash (ToBytes sig)) as [e|pub] eqn:Ep; split.
      * intros He. injection He as <-. now exists hash, e.
      * intros (h' & e' & Hh & Hp & ->). injection Hh as <-.
        rewrite Ep in Hp. now injection Hp as <-.
      * discriminate.
      * intros (h' & e' & Hh & Hp & _). injection Hh as <-. congruence.
    + now apply HashMetaTx_never_fails in Eh.
    + split; [discriminate|]. intros (h' & e' & Hh & _). discriminate.
Qed.

End SigningFacts.

(** ** The batch loop *)

Lemma prefix_of_refl (t : list Event) : prefix_of t t.
Proof. exists []. apply app_nil_r. Qed.

Lemma prefix_of_nil (t : list Event) : prefix_of [] t.
Proof. now exists t. Qed.

Lemma prefix_of_app (a d full : list Event) :
  prefix_of d full -> prefix_of (a ++ d) (a ++ full).
Proof. intros [rest <-]. exists rest. now rewrite <- app_assoc. Qed.

Lemma prefix_of_app_r (d full more : list Event) :
  prefix_of d full -> prefix_of d (full ++ more).
Proof. intros [rest <-]. exists (rest ++ more). now rewrite app_assoc. Qed.

Section LoopFacts.
Context {A B : Type}.
Variables (ctx : Ctx) (body : nat -> A -> M B) (evs : A -> list Event).

(** The body polls nothing, adds an initial segment of [evs x] to the trace,
    and all of it when it returns a value. *)
Hypothesis body_events :
  forall i x w, exists d,
    snd (body i x w) = mkWorld (polls w) (trace w ++ d)
    /\ prefix_of d (evs x)
    /\ (forall v, fst (body i x w) = Ret v -> d = evs x).

Lemma range_loop_nil (i : nat) (out : list B) (w : World) :
  range_loop ctx body [] i out w = (Ret out, w).
Proof. reflexivity. Qed.

Lemma range_loop_cancelled (x : A) (xs : list A) (i : nat) (out : list B)
    (w : World) (e : ContextError) :
  ctx (polls w) = Some e ->
  range_loop ctx body (x :: xs) i out w
  = (Fail (ErrContext e), mkWorld (S (polls w)) (trace w ++ [EvPoll])).
Proof.
  intros Hc. cbn [range_loop]. unfold bindM at 1, check_cancelled.
  now rewrite Hc.
Qed.

Lemma range_loop_step (x : A) (xs : list A) (i : nat) (out : list B) (w : World) :
  ctx (polls w) = None ->
  range_loop ctx body (x :: xs) i out w
  = match body i x (mkWorld (S (polls w)) (trace w ++ [EvPoll])) with
    | (Ret v, w') => range_loop ctx body xs (S i) (Slice.store out i v) w'
    | (Fail e, w') => (Fail e, w')
    | (Panic, w') => (Panic, w')
    end.
Proof.
  intros Hc. cbn [range_loop]. unfold bindM, check_cancelled.
  now rewrite Hc.
Qed.

Lemma range_loop_trace (xs : list A) :
  forall i out w, exists delta,
    trace (snd (range_loop ctx body xs i out w)) = trace w ++ delta
    /\ prefix_of delta (flat_map (fun x => EvPoll :: evs x) xs)
    /\ (forall r, fst (range_loop ctx body xs i out w) = Ret r ->
          delta = flat_map (fun x => EvPoll :: evs x) xs).
Proof.
  induction xs as [|x rest IH]; intros i out w.
  - exists []. cbn. rewrite app_nil_r. split; [reflexivity|].
    split; [apply prefix_of_nil | reflexivity].
  - cbn [flat_map]. destruct (ctx (polls w)) as [e|] eqn:Hc.
    + rewrite (range_loop_cancelled x rest i out w e Hc).
      exists [EvPoll]. cbn [fst snd trace].
      split; [reflexivity|]. split; [|discriminate].
      apply (prefix_of_app [EvPoll] []). apply prefix_of_nil.
    + rewrite (range_loop_step x rest i out w Hc).
      set (w1 := mkWorld (S (polls w)) (trace w ++ [EvPoll])).
      destruct (body_events i x w1) as (d & Hw & Hpre & Hfull).
      destruct (body i x w1) as [o w2] eqn:Eb. cbn [fst snd] in *. subst w2.
      destruct o as [v|e|].
      * specialize (Hfull v eq_refl). subst d.
        destruct (IH (S i) (Slice.store out i v)
                    (mkWorld (polls w1) (trace w1 ++ evs x)))
          as (delta & Ht & Hp & Hr).
        exists (EvPoll :: evs x ++ delta). cbn [trace] in Ht.
        split; [|split].
        -- rewrite Ht. subst w1. cbn [trace].
           rewrite <- !app_assoc. reflexivity.
        -- apply (prefix_of_app [EvPoll]). now apply prefix_of_app.
        -- intros r Hret. rewrite (Hr r Hret). reflexivity.
      * exists (EvPoll :: d). cbn [snd trace fst]. split; [|split; [|discriminate]].
        -- subst w1. cbn [trace]. now rewrite <- app_assoc.
        -- apply (prefix_of_app [EvPoll]). now apply prefix_of_app_r.
      * exists (EvPoll :: d). cbn [snd trace fst]. split; [|split; [|discriminate]].
        -- subst w1. cbn [trace]. now rewrite <- app_assoc.
        -- apply (prefix_of_app [EvPoll]). now apply prefix_of_app_r.
Qed.

(** A run that returns has filled [out] with the values of the bodies, in
    order. *)
Lemma range_loop_result (P : A -> B -> Prop) (zero : B) :
  (forall i x w v, fst (body i x w) = Ret v -> P x v) ->
  forall xs done w r,
    fst (range_loop ctx body xs (List.length done)
           (done ++ Slice.make zero (List.length xs)) w) = Ret r ->
    exists vs, r = done ++ vs /\ Forall2 P xs vs.
Proof.
  intros HP. induction xs as [|x rest IH]; intros done w r Hr.
  - cbn in Hr. injection Hr as <-. exists []. split; [reflexivity | constructor].
  - destruct (ctx (polls w)) as [e|] eqn:Hc.
    + rewrite (range_loop_cancelled x rest _ _ w e Hc) in Hr. discriminate.
    + rewrite (range_loop_step x rest _ _ w Hc) in Hr.
      destruct (body (List.length done) x _) as [o w2] eqn:Eb.
      destruct o as [v|e|]; try discriminate.
      cbn [List.length Slice.make repeat] in Hr.
      rewrite store_next in Hr.
      replace (S (List.length done)) with (List.length (done ++ [v])) in Hr
        by (rewrite length_app; simpl; lia).
      apply IH in Hr. destruct Hr as (vs & -> & Hall).
      exists (v :: vs). rewrite <- app_assoc. split; [reflexivity|].
      constructor; [|exact Hall].
      eapply HP. rewrite Eb. reflexivity.
Qed.

End LoopFacts.

(** ** The batch operations *)

Section BatchFacts.
Context `{C : Crypto}.
Variables (ctx : Ctx) (ds : list byte).

Lemma CreateBatchRequest_run (metaTx : MetaTx) (key : PrivateKey) (w : World) :
  exists o,
    CreateBatchRequest metaTx key ds w
    = (o, mkWorld (polls w) (trace w ++ call_events EvSign metaTx ds))
    /\ (forall v, o = Ret v -> MetaTx_of v = metaTx).
Proof.
  unfold CreateBatchRequest, bindM, wrapM, retM, call_events.
  rewrite SignMetaTx_run.
  destruct (HashMetaTx metaTx ds) as [hash|e|]; cbn [wrap].
  - destruct (crypto_Sign hash key) as [e|sigBytes]; cbn [wrap].
    + eexists. split; [reflexivity | discriminate].
    + destruct (FromBytes zero_Signature sigBytes) as [sig [err|]]; cbn [wrap];
        eexists; (split; [reflexivity|]); try discriminate.
      intros v Hv. injection Hv as <-. reflexivity.
  - rewrite world_eta. eexists. split; [reflexivity | discriminate].
  - rewrite world_eta. eexists. split; [reflexivity | discriminate].
Qed.

Lemma sign_body_events (key : PrivateKey) (i : nat) (metaTx : MetaTx) (w : World) :
  exists d,
    snd (wrapM (ErrCreateBatchRequestAt i) (CreateBatchRequest metaTx key ds) w)
    = mkWorld (polls w) (trace w ++ d)
    /\ prefix_of d (call_events EvSign metaTx ds)
    /\ (forall v,
          fst (wrapM (ErrCreateBatchRequestAt i) (CreateBatchRequest metaTx key ds) w)
          = Ret v -> d = call_events EvSign metaTx ds).
Proof.
  destruct (CreateBatchRequest_run metaTx key w) as (o & Hrun & _).
  unfold wrapM. rewrite Hrun. exists (call_events EvSign metaTx ds).
  split; [reflexivity|]. split; [apply prefix_of_refl|reflexivity].
Qed.

Lemma sign_body_result (key : PrivateKey) (i : nat) (metaTx : MetaTx) (w : World)
    (v : BatchMetaTxRequest) :
  fst (wrapM (ErrCreateBatchRequestAt i) (CreateBatchRequest metaTx key ds) w) = Ret v ->
  MetaTx_of v = metaTx.
Proof.
  destruct (CreateBatchRequest_run metaTx key w) as (o & Hrun & Hret).
  unfold wrapM. rewrite Hrun. cbn [fst].
  destruct o as [v'|e|]; cbn [wrap]; try discriminate.
  intros Hv. injection Hv as <-. now apply Hret.
Qed.

Lemma keyed_body_events (keys : list PrivateKey) (i : nat) (metaTx : MetaTx)
    (w : World) :
  exists d,
    snd ((userPrivKey <- lift (index keys i) ;;
          wrapM (ErrCreateBatchRequestAt i)
            (CreateBatchRequest metaTx userPrivKey ds))%M w)
    = mkWorld (polls w) (trace w ++ d)
    /\ prefix_of d (call_events EvSign metaTx ds)
    /\ (forall v,
          fst ((userPrivKey <- lift (index keys i) ;;
                wrapM (ErrCreateBatchRequestAt i)
                  (CreateBatchRequest metaTx userPrivKey ds))%M w) = Ret v ->
          d = call_events EvSign metaTx ds).
Proof.
  unfold bindM, lift.
  destruct (index keys i) as [key|e|].
  - apply sign_body_events.
  - exists []. cbn [fst snd]. rewrite world_eta.
    split; [reflexivity|]. split; [apply prefix_of_nil | discriminate].
  - exists []. cbn [fst snd]. rewrite world_eta.
    split; [reflexivity|]. split; [apply prefix_of_nil | discriminate].
Qed.

Lemma verify_body_events (i : nat) (req : BatchMetaTxRequest) (w : World) :
  let evs := call_events (fun h => EvRecover h (ToBytes (Signature_of req)))
               (MetaTx_of req) ds in
  exists d,
    snd (wrapM (ErrVerifyAt i)
           (VerifyMetaTxSignature (MetaTx_of req) (Signature_of req) ds) w)
    = mkWorld (polls w) (trace w ++ d)
    /\ prefix_of d evs
    /\ (forall v,
          fst (wrapM (ErrVerifyAt i)
                 (VerifyMetaTxSignature (MetaTx_of req) (Signature_of req) ds) w)
          = Ret v -> d = evs).
Proof.
  intros evs. subst evs. unfold wrapM, call_events.
  rewrite VerifyMetaTxSignature_run.
  destruct (HashMetaTx (MetaTx_of req) ds) as [hash|e|].
  - eexists. split; [reflexivity|]. split; [apply prefix_of_refl | reflexivity].
  - exists []. cbn [snd]. rewrite world_eta.
    split; [reflexivity|]. split; [apply prefix_of_nil | reflexivity].
  - exists []. cbn [snd]. rewrite world_eta.
    split; [reflexivity|]. split; [apply prefix_of_nil | reflexivity].
Qed.

Lemma events_of_delta {A : Type} (m : M A) (w : World) (delta : list Event) :
  trace (snd (m w)) = trace w ++ delta -> events_of m w = delta.
Proof.
  intros Ht. unfold events_of. rewrite Ht. apply skipn_app_length.
Qed.

Lemma events_of_run {A : Type} (m : M A) (w : World) (delta full : list Event) :
  trace (snd (m w)) = trace w ++ delta ->
  prefix_of delta full ->
  (forall r, fst (m w) = Ret r -> delta = full) ->
  prefix_of (events_of m w) full
  /\ (forall r, fst (m w) = Ret r -> events_of m w = full).
Proof.
  intros Ht Hp Hr. rewrite (events_of_delta m w delta Ht). now split.
Qed.

Lemma CreateBatchFromSingleUser_trace (metaTxs : list MetaTx) (key : PrivateKey)
    (w : World) :
  prefix_of (events_of (CreateBatchFromSingleUser ctx metaTxs key ds) w)
            (signing_trace metaTxs ds)
  /\ (forall r, fst (CreateBatchFromSingleUser ctx metaTxs key ds w) = Ret r ->
        events_of (CreateBatchFromSingleUser ctx metaTxs key ds) w
        = signing_trace metaTxs ds).
Proof.
  unfold CreateBatchFromSingleUser. cbv zeta.
  destruct (range_loop_trace ctx
              (fun i metaTx =>
                 wrapM (ErrCreateBatchRequestAt i) (CreateBatchRequest metaTx key ds))
              (fun m => call_events EvSign m ds)
              (sign_body_events key) metaTxs 0%nat
              (Slice.make zero_BatchMetaTxRequest (List.length metaTxs)) w)
    as (delta & Ht & Hp & Hr).
  exact (events_of_run _ w delta _ Ht Hp Hr).
Qed.

Lemma CreateBatchFromMetaTxs_trace (metaTxs : list MetaTx) (keys : list PrivateKey)
    (w : World) :
  prefix_of (events_of (CreateBatchFromMetaTxs ctx metaTxs keys ds) w)
            (signing_trace metaTxs ds)
  /\ (forall r, fst (CreateBatchFromMetaTxs ctx metaTxs keys ds w) = Ret r ->
        events_of (CreateBatchFromMetaTxs ctx metaTxs keys ds) w
        = signing_trace metaTxs ds).
Proof.
  unfold CreateBatchFromMetaTxs. cbv zeta.
  destruct (negb (List.length metaTxs =? List.length keys)%nat).
  - unfold events_of, lift. cbn [fst snd]. rewrite skipn_all.
    split; [apply prefix_of_nil | discriminate].
  - destruct (range_loop_trace ctx
                (fun i metaTx =>
                   (userPrivKey <- lift (index keys i) ;;
                    wrapM (ErrCreateBatchRequestAt i)
                      (CreateBatchRequest metaTx userPrivKey ds))%M)
                (fun m => call_events EvSign m ds)
                (keyed_body_events keys) metaTxs 0%nat
                (Slice.make zero_BatchMetaTxRequest (List.length metaTxs)) w)
      as (delta & Ht & Hp & Hr).
    exact (events_of_run _ w delta _ Ht Hp Hr).
Qed.

Lemma VerifyBatchRequests_trace (batch : BatchMetaTxRequestList) (w : World) :
  prefix_of (events_of (VerifyBatchRequests ctx batch ds) w)
            (verification_trace batch ds)
  /\ (forall r, fst (VerifyBatchRequests ctx batch ds w) = Ret r ->
        events_of (VerifyBatchRequests ctx batch ds) w = verification_trace batch ds).
Proof.
  unfold VerifyBatchRequests. cbv zeta.
  destruct (range_loop_trace ctx
              (fun i req =>
                 wrapM (ErrVerifyAt i)
                   (VerifyMetaTxSignature (MetaTx_of req) (Signature_of req) ds))
              (fun req => call_events (fun h => EvRecover h (ToBytes (Signature_of req)))
                            (MetaTx_of req) ds)
              verify_body_events batch 0%nat
              (Slice.make false (List.length batch)) w)
    as (delta & Ht & Hp & Hr).
  exact (events_of_run _ w delta _ Ht Hp Hr).
Qed.

(** Signing leaves the [MetaTx] of each request as it was given. *)
Lemma CreateBatchFromSingleUser_MetaTxs (metaTxs : list MetaTx) (key : PrivateKey)
    (w : World) (batch : BatchMetaTxRequestList) :
  fst (CreateBatchFromSingleUser ctx metaTxs key ds w) = Ret batch ->
  List.map MetaTx_of batch = metaTxs.
Proof.
  unfold CreateBatchFromSingleUser. cbv zeta. intros Hr.
  apply (range_loop_result ctx
           (fun i metaTx =>
              wrapM (ErrCreateBatchRequestAt i) (CreateBatchRequest metaTx key ds))
           (fun m v => MetaTx_of v = m)
           zero_BatchMetaTxRequest (sign_body_result key) metaTxs [] w batch) in Hr.
  destruct Hr as (vs & -> & Hall). cbn [app].
  induction Hall as [|m v ms vs Hv _ IH]; [reflexivity|].
  cbn. now rewrite Hv, IH.
Qed.

End BatchFacts.

Section Cancellation.
Context `{C : Crypto}.
Variables (ctx : Ctx) (ds : list byte) (w : World).

Lemma CreateBatchFromSingleUser_cancelled (e : ContextError)
    (metaTxs : list MetaTx) (key : PrivateKey) :
  ctx (polls w) = Some e -> metaTxs <> [] ->
  CreateBatchFromSingleUser ctx metaTxs key ds w
  = (Fail (ErrContext e), mkWorld (S (polls w)) (trace w ++ [EvPoll])).
Proof.
  intros Hc Hne. destruct metaTxs as [|m rest]; [contradiction|].
  unfold CreateBatchFromSingleUser. cbv zeta.
  now apply range_loop_cancelled.
Qed.

Lemma CreateBatchFromMetaTxs_cancelled (e : ContextError)
    (metaTxs : list MetaTx) (keys : list PrivateKey) :
  ctx (polls w) = Some e -> metaTxs <> [] ->
  List.length metaTxs = List.length keys ->
  CreateBatchFromMetaTxs ctx metaTxs keys ds w
  = (Fail (ErrContext e), mkWorld (S (polls w)) (trace w ++ [EvPoll])).
Proof.
  intros Hc Hne Hlen. destruct metaTxs as [|m rest]; [contradiction|].
  unfold CreateBatchFromMetaTxs. cbv zeta.
  rewrite Hlen, Nat.eqb_refl. cbn [negb].
  now apply range_loop_cancelled.
Qed.

Lemma VerifyBatchRequests_cancelled (e : ContextError)
    (batch : BatchMetaTxRequestList) :
  ctx (polls w) = Some e -> batch <> [] ->
  VerifyBatchRequests ctx batch ds w
  = (Fail (ErrContext e), mkWorld (S (polls w)) (trace w ++ [EvPoll])).
Proof.
  intros Hc Hne. destruct batch as [|req rest]; [contradiction|].
  unfold VerifyBatchRequests. cbv zeta.
  now apply range_loop_cancelled.
Qed.

End Cancellation.

(** C8, as the code has it.  Under a context that was cancelled before the
    call, each batch operation on a non-empty batch (for
    [CreateBatchFromMetaTxs], with as many keys as requests) returns the
    context's error after a single poll, the trace showing no call to the
    signing or recovery primitive.  On an empty batch the operations return
    the empty result without polling.  Given lists of different lengths,
    [CreateBatchFromMetaTxs] returns the mismatch with both lengths, under
    any context, without a poll or a call.  In every run, under any context, the
    trace is an initial segment of: poll, call for element 0, poll, call for
    element 1, and so on in ascending order; a run that returns has the whole
    of it. *)
Theorem batch_cancellation `{C : Crypto} (ctx : Ctx) (ds : list byte) (w : World) :
  (forall e, AlreadyCancelled ctx e ->
     (forall metaTxs key, metaTxs <> [] ->
        CreateBatchFromSingleUser ctx metaTxs key ds w
        = (Fail (ErrContext e), mkWorld (S (polls w)) (trace w ++ [EvPoll])))
     /\ (forall metaTxs keys, metaTxs <> [] ->
           List.length metaTxs = List.length keys ->
           CreateBatchFromMetaTxs ctx metaTxs keys ds w
           = (Fail (ErrContext e), mkWorld (S (polls w)) (trace w ++ [EvPoll])))
     /\ (forall batch, batch <> [] ->
           VerifyBatchRequests ctx batch ds w
           = (Fail (ErrContext e), mkWorld (S (polls w)) (trace w ++ [EvPoll]))))
  /\ (forall key, CreateBatchFromSingleUser ctx [] key ds w = (Ret [], w))
  /\ CreateBatchFromMetaTxs ctx [] [] ds w = (Ret [], w)
  /\ VerifyBatchRequests ctx [] ds w = (Ret [], w)
  /\ (forall metaTxs keys,
        List.length metaTxs <> List.length keys ->
        CreateBatchFromMetaTxs ctx metaTxs keys ds w
        = (Fail (ErrMetaTxsKeysMismatch (List.length metaTxs) (List.length keys)), w))
  /\ (forall metaTxs key,
        prefix_of (events_of (CreateBatchFromSingleUser ctx metaTxs key ds) w)
                  (signing_trace metaTxs ds)
        /\ (forall r, fst (CreateBatchFromSingleUser ctx metaTxs key ds w) = Ret r ->
              events_of (CreateBatchFromSingleUser ctx metaTxs key ds) w
              = signing_trace metaTxs ds))
  /\ (forall metaTxs keys,
        prefix_of (events_of (CreateBatchFromMetaTxs ctx metaTxs keys ds) w)
                  (signing_trace metaTxs ds)
        /\ (forall r, fst (CreateBatchFromMetaTxs ctx metaTxs keys ds w) = Ret r ->
              events_of (CreateBatchFromMetaTxs ctx metaTxs keys ds) w
              = signing_trace metaTxs ds))
  /\ (forall batch,
        prefix_of (events_of (VerifyBatchRequests ctx batch ds) w)
                  (verification_trace batch ds)
        /\ (forall r, fst (VerifyBatchRequests ctx batch ds w) = Ret r ->
              events_of (VerifyBatchRequests ctx batch ds) w
              = verification_trace batch ds)).
Proof.
  split; [|split; [|split; [|split; [|split; [|split; [|split]]]]]].
  - intros e Hc. split; [|split].
    + intros ms key Hne. now apply CreateBatchFromSingleUser_cancelled.
    + intros ms keys Hne Hlen. now apply CreateBatchFromMetaTxs_cancelled.
    + intros batch Hne. now apply VerifyBatchRequests_cancelled.
  - reflexivity.
  - reflexivity.
  - reflexivity.
  - intros ms keys Hlen. unfold CreateBatchFromMetaTxs.
    apply Nat.eqb_neq in Hlen. now rewrite Hlen.
  - intros ms key. apply CreateBatchFromSingleUser_trace.
  - intros ms keys. apply CreateBatchFromMetaTxs_trace.
  - intros batch. apply VerifyBatchRequests_trace.
Qed.

Lemma batch_cancellation_witness :
  CreateBatchFromSingleUser (H := toy_crypto) (fun _ => Some Canceled)
    [sample_MetaTx] (address_of_Z 1) [] initial_world
  = (Fail (ErrContext Canceled), mkWorld 1 [EvPoll]).
Proof.
  refine (proj1 (proj1 (batch_cancellation (C := toy_crypto)
                          (fun _ => Some Canceled) [] initial_world)
                   Canceled (fun _ => eq_refl))
            [sample_MetaTx] (address_of_Z 1) _).
  discriminate.
Defined.

(** C8 as stated fails on the empty batch: under a cancelled context the
    operations return the empty result, not the cancellation; and
    [CreateBatchFromMetaTxs] reports a length mismatch before it looks at the
    context. *)
Lemma cancelled_empty_batch_is_not_cancelled :
  CreateBatchFromSingleUser (H := toy_crypto) (fun _ => Some Canceled)
    [] (address_of_Z 1) [] initial_world = (Ret [], initial_world)
  /\ CreateBatchFromMetaTxs (H := toy_crypto) (fun _ => Some Canceled)
       [] [] [] initial_world = (Ret [], initial_world)
  /\ VerifyBatchRequests (H := toy_crypto) (fun _ => Some Canceled)
       [] [] initial_world = (Ret [], initial_world)
  /\ CreateBatchFromMetaTxs (H := toy_crypto) (fun _ => Some Canceled)
       [sample_MetaTx] [] [] initial_world
     = (Fail (ErrMetaTxsKeysMismatch 1 0), initial_world).
Proof. repeat split. Qed.

(** ** Sequential nonces *)

Lemma ValidateBatchNonces_of_sequential (from token : Address)
    (gas start deadline : Z) (recipients : list Address) (amounts : list (option Z))
    (batch : BatchMetaTxRequestList) :
  List.length recipients = List.length amounts ->
  List.map MetaTx_of batch
  = sequential_batch from token gas start deadline 0 recipients amounts ->
  ValidateBatchNonces batch start = None.
Proof.
  intros Hlen Hmap. unfold ValidateBatchNonces.
  apply ValidateBatchNonces_from_ok. intros k req Hk.
  apply (map_nth_error_inv MetaTx_of) in Hk. rewrite Hmap in Hk.
  assert (Hkl : (k < List.length recipients)%nat).
  { rewrite <- (sequential_batch_length from token gas start deadline
                   recipients amounts 0 Hlen).
    apply nth_error_Some. now rewrite Hk. }
  destruct (nth_error recipients k) as [r|] eqn:Er;
    [|apply nth_error_None in Er; lia].
  destruct (nth_error amounts k) as [a|] eqn:Ea;
    [|apply nth_error_None in Ea; lia].
  rewrite (sequential_batch_nth from token gas start deadline recipients amounts
             0 k r a Er Ea) in Hk.
  injection Hk as Hk. rewrite <- Hk. reflexivity.
Qed.

(** C6, as the code has it.  [NewMetaTxBatch] fails, with the length
    mismatch error, exactly when the two lists differ in length.  Otherwise
    it returns one [MetaTx] per recipient, the [i]-th holding the given
    fields, recipient [i], amount [i] and the nonce [startingNonce + i]
    computed in [uint64], that is modulo [2^64] (the plain sum as long as it
    stays below [2^64]).  Any batch over these requests, and in particular the
    batch [CreateBatchFromSingleUser] returns for them, passes
    [ValidateBatchNonces] from [startingNonce].  [ValidateBatchNonces]
    succeeds exactly when every nonce is [expectedStart + i] modulo [2^64],
    and otherwise reports the first index where that fails, with the
    expected and the found nonce. *)
Theorem NewMetaTxBatch_sequential_nonces (from token : Address)
    (gas startingNonce deadline : Z) (recipients : list Address)
    (amounts : list (option Z)) :
  ((exists e, NewMetaTxBatch from recipients token amounts gas startingNonce deadline
              = Fail e)
   <-> List.length recipients <> List.length amounts)
  /\ (List.length recipients <> List.length amounts ->
      NewMetaTxBatch from recipients token amounts gas startingNonce deadline
      = Fail (ErrRecipientsAmountsMismatch (List.length recipients)
                (List.length amounts)))
  /\ (List.length recipients = List.length amounts ->
      exists metaTxs,
        NewMetaTxBatch from recipients token amounts gas startingNonce deadline
        = Ret metaTxs
        /\ List.length metaTxs = List.length recipients
        /\ (forall i r a,
              nth_error recipients i = Some r ->
              nth_error amounts i = Some a ->
              nth_error metaTxs i
              = Some (mkMetaTx from r token a gas
                        ((startingNonce + Z.of_nat i) mod two64) deadline)
              /\ (0 <= startingNonce -> startingNonce + Z.of_nat i < two64 ->
                  (startingNonce + Z.of_nat i) mod two64
                  = startingNonce + Z.of_nat i))
        /\ (forall batch,
              List.map MetaTx_of batch = metaTxs ->
              ValidateBatchNonces batch startingNonce = None)
        /\ (forall (C : Crypto) ctx key ds w batch,
              fst (CreateBatchFromSingleUser ctx metaTxs key ds w) = Ret batch ->
              ValidateBatchNonces batch startingNonce = None))
  /\ (forall batch expectedStart,
        (ValidateBatchNonces batch expectedStart = None <->
         forall i req, nth_error batch i = Some req ->
           Nonce (MetaTx_of req) = (expectedStart + Z.of_nat i) mod two64)
        /\ (forall err,
              ValidateBatchNonces batch expectedStart = Some err <->
              exists i req,
                nth_error batch i = Some req
                /\ Nonce (MetaTx_of req) <> (expectedStart + Z.of_nat i) mod two64
                /\ (forall j req', (j < i)%nat -> nth_error batch j = Some req' ->
                      Nonce (MetaTx_of req')
                      = (expectedStart + Z.of_nat j) mod two64)
                /\ err = ErrNonceAt i ((expectedStart + Z.of_nat i) mod two64)
                           (Nonce (MetaTx_of req)))).
Proof.
  split; [|split; [|split]].
  - split.
    + intros [e He] Hlen.
      rewrite (NewMetaTxBatch_equal_lengths from token gas startingNonce deadline
                 recipients amounts Hlen) in He. discriminate.
    + intros Hlen. eexists. now apply NewMetaTxBatch_mismatch.
  - apply NewMetaTxBatch_mismatch.
  - intros Hlen. eexists. split; [now apply NewMetaTxBatch_equal_lengths|].
    split; [now apply sequential_batch_length|]. split; [|split].
    + intros i r a Hr Ha. split.
      * apply (sequential_batch_nth from token gas startingNonce deadline
                 recipients amounts 0 i r a Hr Ha).
      * intros Hlo Hhi. apply Z.mod_small. lia.
    + intros batch Hmap.
      now apply (ValidateBatchNonces_of_sequential from token gas startingNonce
                   deadline recipients amounts).
    + intros C ctx key ds w batch Hrun.
      apply CreateBatchFromSingleUser_MetaTxs in Hrun.
      now apply (ValidateBatchNonces_of_sequential from token gas startingNonce
                   deadline recipients amounts).
  - intros batch expectedStart. unfold ValidateBatchNonces. split.
    + apply ValidateBatchNonces_from_ok.
    + intros err. apply ValidateBatchNonces_from_first.
Qed.

(** Test vector V5: two recipients from nonce 7. *)
Example batch_nonces_V5 :
  exists metaTxs,
    NewMetaTxBatch (address_of_Z 1) [address_of_Z 2; address_of_Z 3] (address_of_Z 4)
      [Some 5; Some 6] 100000 7 2000000000 = Ret metaTxs
    /\ List.map Nonce metaTxs = [7; 8]
    /\ ValidateBatchNonces
         (List.map (fun m => mkBatchMetaTxRequest m zero_Signature) metaTxs) 7 = None
    /\ ValidateBatchNonces
         (List.map (fun m => mkBatchMetaTxRequest m zero_Signature) metaTxs) 8
       = Some (ErrNonceAt 0 8 7).
Proof. eexists. repeat split. Qed.

(** C6 as stated fails where the sum leaves [uint64]: from the starting
    nonce [2^64 - 1] the second request gets the nonce [0], not [2^64]. *)
Lemma NewMetaTxBatch_nonce_wraps :
  NewMetaTxBatch (address_of_Z 1) [address_of_Z 2; address_of_Z 3] (address_of_Z 4)
    [Some 5; Some 6] 100000 (two64 - 1) 2000000000
  = Ret [ mkMetaTx (address_of_Z 1) (address_of_Z 2) (address_of_Z 4) (Some 5)
            100000 (two64 - 1) 2000000000;
          mkMetaTx (address_of_Z 1) (address_of_Z 3) (address_of_Z 4) (Some 6)
            100000 0 2000000000 ]
  /\ is_uint64 (two64 - 1)
  /\ (two64 - 1) + 1 <> 0.
Proof.
  split; [reflexivity|]. unfold is_uint64, two64. split; lia.
Qed.

(** ** Constructors and the validator *)

Lemma validateMetaTx_ok (m : MetaTx) :
  validateMetaTx m = None <->
  From m <> zero_address /\ To m <> zero_address /\ Token m <> zero_address
  /\ (exists a, Amount m = Some a /\ 0 < a) /\ Deadline m <> 0.
Proof.
  unfold validateMetaTx.
  destruct (Address_eqb (From m) zero_address) eqn:Ef.
  { apply Address_eqb_eq in Ef. split; [discriminate|]. now intros [Hf _]. }
  destruct (Address_eqb (To m) zero_address) eqn:Et.
  { apply Address_eqb_eq in Et. split; [discriminate|]. now intros (_ & Ht & _). }
  destruct (Address_eqb (Token m) zero_address) eqn:Ek.
  { apply Address_eqb_eq in Ek. split; [discriminate|]. now intros (_ & _ & Hk & _). }
  assert (Hf : From m <> zero_address)
    by (intros Heq; apply Address_eqb_eq in Heq; congruence).
  assert (Ht : To m <> zero_address)
    by (intros Heq; apply Address_eqb_eq in Heq; congruence).
  assert (Hk : Token m <> zero_address)
    by (intros Heq; apply Address_eqb_eq in Heq; congruence).
  unfold amount_invalid. destruct (Amount m) as [a|].
  - destruct (Z.sgn a <=? 0) eqn:Es.
    + split; [discriminate|]. intros (_ & _ & _ & (a' & Ha & Hpos) & _).
      injection Ha as <-. apply Z.leb_le in Es. destruct a; simpl in Es; lia.
    + apply Z.leb_gt in Es.
      assert (Hpos : 0 < a) by (destruct a; simpl in Es; lia).
      destruct (Deadline m =? 0) eqn:Ed.
      * apply Z.eqb_eq in Ed. split; [discriminate|]. now intros (_ & _ & _ & _ & Hd).
      * apply Z.eqb_neq in Ed. split; [|reflexivity]. intros _.
        repeat (split; [assumption|]). split; [now exists a | exact Ed].
  - split; [discriminate|]. intros (_ & _ & _ & (a & Ha & _) & _). discriminate.
Qed.




(** ** Runs on concrete inputs *)

(** Test vector V2: recipient [0x..01], amount 1. *)
Example transfer_calldata_V2 :
  hex_of (TransferData
            (NewMetaTx zero_address (address_of_Z 1) zero_address (Some 1) 100000 0 1))
  = Some ("a9059cbb"
          ++ "0000000000000000000000000000000000000000000000000000000000000001"
          ++ "0000000000000000000000000000000000000000000000000000000000000001")%string.
Proof. vm_compute. reflexivity. Qed.

(** Under the stand-in primitives: a request signed for its own sender
    verifies, one signed for another address gives [false], and signature
    bytes the recovery rejects give an error. *)
Example sign_then_verify :
  fst (bindM (CreateBatchFromSingleUser (H := toy_crypto) background
                [sample_MetaTx] (address_of_Z 1) [])
             (fun batch => VerifyBatchRequests background batch [])
         initial_world) = Ret [true]
  /\ fst (bindM (CreateBatchFromSingleUser (H := toy_crypto) background
                   [sample_MetaTx] (address_of_Z 2) [])
                (fun batch => VerifyBatchRequests background batch [])
            initial_world) = Ret [false]
  /\ fst (VerifyMetaTxSignature (H := toy_crypto) sample_MetaTx
            (mkSignature x1b (Vector.const x00 32) (Vector.const x00 32)) []
            initial_world)
     = Fail (ErrRecoverPublicKey (ErrCrypto 1)).
Proof. vm_compute. repeat split. Qed.

(** * Further properties of the package *)

(** ** Signature bytes, the other way round *)

Lemma to_list_vcopy {A : Type} (n : nat) (dst : Vector.t A n) :
  forall src, (n <= List.length src)%nat ->
    Vector.to_list (Slice.vcopy dst src) = firstn n src.
Proof.
  induction dst as [|d n dst IH]; intros src Hlen.
  - reflexivity.
  - destruct src as [|x src]; [simpl in Hlen; lia|].
    simpl Slice.vcopy. rewrite Vector.to_list_cons.
    simpl firstn. f_equal. apply IH. simpl in Hlen. lia.
Qed.

Lemma split_65 (data : list byte) :
  List.length data = 65%nat ->
  firstn 32 data ++ firstn 32 (skipn 32 data) ++ [nth 64 data x00] = data.
Proof.
  intros Hlen.
  rewrite <- (firstn_skipn 32 data) at 4. f_equal.
  set (rest := skipn 32 data).
  assert (Hrest : List.length rest = 33%nat) by (subst rest; rewrite length_skipn; lia).
  assert (Hnth : nth 64 data x00 = nth 32 rest x00).
  { rewrite <- (firstn_skipn 32 data) at 1.
    rewrite app_nth2 by (rewrite length_firstn; lia).
    rewrite length_firstn. now replace (64 - Nat.min 32 (List.length data))%nat
                             with 32%nat by lia. }
  rewrite Hnth. clearbody rest. clear Hnth Hlen data.
  rewrite <- (firstn_skipn 32 rest) at 3. f_equal.
  set (last := skipn 32 rest).
  assert (Hlast : List.length last = 1%nat) by (subst last; rewrite length_skipn; lia).
  assert (Hn : nth 32 rest x00 = nth 0 last x00).
  { rewrite <- (firstn_skipn 32 rest) at 1.
    rewrite app_nth2 by (rewrite length_firstn; lia).
    rewrite length_firstn. now replace (32 - Nat.min 32 (List.length rest))%nat
                             with 0%nat by lia. }
  rewrite Hn. destruct last as [|b [|c last]]; try discriminate. reflexivity.
Qed.

Lemma ToBytes_FromBytes (s0 : Signature) (data : list byte) :
  List.length data = 65%nat -> ToBytes (fst (FromBytes s0 data)) = data.
Proof.
  intros Hlen. unfold FromBytes. rewrite Hlen. cbn [Nat.eqb negb fst].
  rewrite ToBytes_layout. cbn [SigV SigR SigS].
  unfold Slice.slice. rewrite skipn_O.
  change (32 - 0)%nat with 32%nat. change (64 - 32)%nat with 32%nat.
  rewrite !to_list_vcopy
    by (rewrite ?length_firstn, ?length_skipn; lia).
  rewrite !firstn_firstn. change (Nat.min 32 32) with 32%nat.
  now apply split_65.
Qed.

(** X1.  On a byte string of length 65, [FromBytes] followed by [ToBytes]
    gives the bytes back, whatever the receiver held; and [ToBytes] is
    injective, so the 65 bytes determine the signature. *)
Theorem Signature_bytes_inverse (s0 : Signature) (data : list byte) :
  List.length data = 65%nat ->
  snd (FromBytes s0 data) = None
  /\ ToBytes (fst (FromBytes s0 data)) = data
  /\ (forall s1 s2, ToBytes s1 = ToBytes s2 -> s1 = s2).
Proof.
  intros Hlen. split; [|split].
  - unfold FromBytes. now rewrite Hlen.
  - now apply ToBytes_FromBytes.
  - intros s1 s2 Heq.
    pose proof (FromBytes_layout zero_Signature (SigR s1) (SigS s1) (SigV s1)) as H1.
    pose proof (FromBytes_layout zero_Signature (SigR s2) (SigS s2) (SigV s2)) as H2.
    rewrite <- !ToBytes_layout in H1, H2. rewrite Heq in H1. rewrite H1 in H2.
    destruct s1, s2. simpl in H2. now injection H2 as -> -> ->.
Qed.

Lemma Signature_bytes_inverse_witness :
  ToBytes (fst (FromBytes zero_Signature (repeat x2a 65))) = repeat x2a 65.
Proof.
  exact (proj1 (proj2 (Signature_bytes_inverse zero_Signature (repeat x2a 65) eq_refl))).
Defined.

(** ** What the encoders do with every amount and chain id *)

Lemma FillBytes_outcome (v : Z) (n : nat) :
  FillBytes (Some v) (Bytes.make n)
  = if Z.abs v <? 256 ^ Z.of_nat n then Ret (Bytes.be_bytes n (Z.abs v)) else Panic.
Proof.
  unfold FillBytes, Bytes.make, Slice.make. now rewrite repeat_length.
Qed.

Lemma TransferData_abs (m : MetaTx) (a : Z) :
  Amount m = Some a -> Z.abs a < two256 ->
  TransferData m = Ret (spec_transferCalldata (To m) (Z.abs a)).
Proof.
  intros Ha Hr. unfold TransferData.
  rewrite transfer_selector_eq, leftpad32_copy, Ha, FillBytes_outcome, pow256_32.
  apply Z.ltb_lt in Hr. rewrite Hr.
  unfold bind, spec_transferCalldata, be32.
  change ([] ++ transfer_selector) with transfer_selector.
  now rewrite <- app_assoc.
Qed.

Lemma TransferData_too_big (m : MetaTx) (a : Z) :
  Amount m = Some a -> two256 <= Z.abs a -> TransferData m = Panic.
Proof.
  intros Ha Hr. unfold TransferData.
  rewrite Ha, FillBytes_outcome, pow256_32.
  apply Z.ltb_ge in Hr. now rewrite Hr.
Qed.

Lemma TransferData_nil (m : MetaTx) : Amount m = None -> TransferData m = Panic.
Proof. intros Ha. unfold TransferData. now rewrite Ha. Qed.

(** X2.  [TransferData] panics on a nil amount and on an amount of absolute
    value [2^256] or more; on every other amount it returns the 68 bytes
    [selector || leftpad32(to) || be32(|amount|)]: the sign of the amount is
    dropped, so [-a] and [a] give the same calldata. *)
Theorem TransferData_outcome (m : MetaTx) :
  (Amount m = None -> TransferData m = Panic)
  /\ (forall a, Amount m = Some a -> two256 <= Z.abs a -> TransferData m = Panic)
  /\ (forall a, Amount m = Some a -> Z.abs a < two256 ->
        TransferData m = Ret (transfer_selector ++ leftpad32 (To m) ++ be32 (Z.abs a))
        /\ List.length (transfer_selector ++ leftpad32 (To m) ++ be32 (Z.abs a))
           = 68%nat)
  /\ (forall m', To m' = To m ->
        (exists a, Amount m = Some a /\ Amount m' = Some (- a)) ->
        TransferData m' = TransferData m).
Proof.
  split; [apply TransferData_nil|]. split; [apply TransferData_too_big|]. split.
  - intros a Ha Hr. split; [now apply TransferData_abs|].
    apply spec_transferCalldata_length.
  - intros m' Hto (a & Ha & Ha').
    destruct (Z.lt_ge_cases (Z.abs a) two256) as [Hr|Hr].
    + rewrite (TransferData_abs m a Ha Hr).
      rewrite (TransferData_abs m' (- a) Ha') by (now rewrite Z.abs_opp).
      now rewrite Z.abs_opp, Hto.
    + rewrite (TransferData_too_big m a Ha Hr).
      apply (TransferData_too_big m' (- a) Ha'). now rewrite Z.abs_opp.
Qed.

Lemma app_inj_length {A : Type} (a a' b b' : list A) :
  List.length a = List.length a' -> a ++ b = a' ++ b' -> a = a' /\ b = b'.
Proof.
  revert a'; induction a as [|x a IH]; intros [|x' a'] Hlen Heq;
    simpl in *; try discriminate.
  - now split.
  - injection Heq as -> Heq. injection Hlen as Hlen.
    destruct (IH a' Hlen Heq) as [-> ->]. now split.
Qed.

Lemma be_bytes_inj (n : nat) (a b : Z) :
  0 <= a < 256 ^ Z.of_nat n -> 0 <= b < 256 ^ Z.of_nat n ->
  Bytes.be_bytes n a = Bytes.be_bytes n b -> a = b.
Proof.
  intros Ha Hb Heq.
  rewrite <- (be_value_be_bytes n a Ha), <- (be_value_be_bytes n b Hb).
  now rewrite Heq.
Qed.

Lemma spec_transferCalldata_inj (to1 to2 : Address) (a1 a2 : Z) :
  0 <= a1 < two256 -> 0 <= a2 < two256 ->
  spec_transferCalldata to1 a1 = spec_transferCalldata to2 a2 ->
  to1 = to2 /\ a1 = a2.
Proof.
  intros H1 H2 Heq. unfold spec_transferCalldata, leftpad32 in Heq.
  apply app_inv_head in Heq. rewrite <- !app_assoc in Heq.
  apply app_inv_head in Heq.
  apply app_inj_length in Heq; [|now rewrite !Address_Bytes_length].
  destruct Heq as [Hto Ha]. split.
  - now apply Vector.to_list_inj.
  - apply (be_bytes_inj 32); rewrite ?pow256_32; assumption.
Qed.

(** X3.  On amounts in [0, 2^256) the calldata determines the transfer: two
    requests with the same [TransferData] have the same recipient and the
    same amount. *)
Theorem TransferData_injective (m1 m2 : MetaTx) (a1 a2 : Z) :
  Amount m1 = Some a1 -> Amount m2 = Some a2 ->
  0 <= a1 < two256 -> 0 <= a2 < two256 ->
  TransferData m1 = TransferData m2 ->
  To m1 = To m2 /\ a1 = a2.
Proof.
  intros E1 E2 H1 H2 Heq.
  rewrite (TransferData_in_range m1 a1 E1 H1) in Heq.
  rewrite (TransferData_in_range m2 a2 E2 H2) in Heq.
  assert (Hd : spec_transferCalldata (To m1) a1 = spec_transferCalldata (To m2) a2)
    by congruence.
  now apply spec_transferCalldata_inj.
Qed.

Lemma TransferData_injective_witness :
  To sample_MetaTx = To sample_MetaTx /\ 10 ^ 18 = 10 ^ 18.
Proof.
  refine (TransferData_injective sample_MetaTx sample_MetaTx (10 ^ 18) (10 ^ 18)
            eq_refl eq_refl _ _ eq_refl); unfold two256; lia.
Defined.


Lemma HashMetaTx_abs (m : MetaTx) (a : Z) (ds : list byte) :
  Amount m = Some a -> Z.abs a < two256 -> MetaTx_wf m ->
  HashMetaTx m ds
  = Ret (Keccak.Keccak256
           ([x19; x01] ++ ds ++ Keccak.Keccak256 (struct_preimage m (Z.abs a)))).
Proof.
  intros Ha Hr (Hg & Hn & Hd). unfold HashMetaTx.
  rewrite (TransferData_abs m a Ha Hr). unfold wrap, bind, SetUint64.
  rewrite !FillBytes_in_range by (now apply uint64_fits).
  unfold struct_preimage. rewrite be32_zero. fold (be32 (Gas m)).
  fold (be32 (Nonce m)). fold (be32 (Deadline m)).
  rewrite !app_nil_l. now rewrite <- !app_assoc.
Qed.

Lemma HashMetaTx_panics (m : MetaTx) (ds : list byte) :
  TransferData m = Panic -> HashMetaTx m ds = Panic.
Proof. intros Ht. unfold HashMetaTx. now rewrite Ht. Qed.

(** X5.  For a [MetaTx] whose [uint64] fields hold [uint64] values,
    [HashMetaTx] panics exactly when [TransferData] does (nil amount, or
    absolute value [2^256] or more) and otherwise returns a 32-byte digest.
    The digest is taken over the absolute value of the amount: a request for
    [-a] has the digest of the request for [a]. *)
Theorem HashMetaTx_outcome (m : MetaTx) (ds : list byte) :
  MetaTx_wf m ->
  (HashMetaTx m ds = Panic <-> TransferData m = Panic)
  /\ (HashMetaTx m ds = Panic <->
      Amount m = None \/ exists a, Amount m = Some a /\ two256 <= Z.abs a)
  /\ (forall a, Amount m = Some a -> Z.abs a < two256 ->
        exists digest, HashMetaTx m ds = Ret digest /\ List.length digest = 32%nat)
  /\ (forall a, Amount m = Some a ->
        HashMetaTx (mkMetaTx (From m) (To m) (Token m) (Some (- a))
                      (Gas m) (Nonce m) (Deadline m)) ds
        = HashMetaTx m ds).
Proof.
  intros Hwf.
  assert (Hcases : Amount m = None
                   \/ (exists a, Amount m = Some a /\ two256 <= Z.abs a)
                   \/ (exists a, Amount m = Some a /\ Z.abs a < two256)).
  { destruct (Amount m) as [a|]; [|now left]. right.
    destruct (Z.lt_ge_cases (Z.abs a) two256); [right|left]; now exists a. }
  split; [|split; [|split]].
  - split; [|apply HashMetaTx_panics].
    destruct Hcases as [Hn | [(a & Ha & Hr) | (a & Ha & Hr)]].
    + intros _. now apply TransferData_nil.
    + intros _. now apply (TransferData_too_big m a).
    + rewrite (HashMetaTx_abs m a ds Ha Hr Hwf). discriminate.
  - split.
    + destruct Hcases as [Hn | [H2 | (a & Ha & Hr)]]; [now left|now right|].
      rewrite (HashMetaTx_abs m a ds Ha Hr Hwf). discriminate.
    + intros [Hn | (a & Ha & Hr)]; apply HashMetaTx_panics.
      * now apply TransferData_nil.
      * now apply (TransferData_too_big m a).
  - intros a Ha Hr. eexists. split; [exact (HashMetaTx_abs m a ds Ha Hr Hwf)|].
    apply Keccak256_length.
  - intros a Ha. set (m' := mkMetaTx _ _ _ _ _ _ _).
    assert (Hwf' : MetaTx_wf m') by exact Hwf.
    destruct (Z.lt_ge_cases (Z.abs a) two256) as [Hr|Hr].
    + rewrite (HashMetaTx_abs m a ds Ha Hr Hwf).
      rewrite (HashMetaTx_abs m' (- a) ds eq_refl) by (rewrite ?Z.abs_opp; assumption).
      now rewrite Z.abs_opp.
    + rewrite (HashMetaTx_panics m ds (TransferData_too_big m a Ha Hr)).
      apply HashMetaTx_panics. apply (TransferData_too_big m' (- a) eq_refl).
      now rewrite Z.abs_opp.
Qed.

Lemma HashMetaTx_outcome_witness :
  HashMetaTx sample_MetaTx [] = Panic <-> TransferData sample_MetaTx = Panic.
Proof.
  exact (proj1 (HashMetaTx_outcome sample_MetaTx [] sample_MetaTx_wf)).
Defined.

(** ** Validation *)

Lemma Address_eqb_neq (a b : Address) : Address_eqb a b = false <-> a <> b.
Proof.
  split.
  - intros Hf Heq. apply Address_eqb_eq in Heq. congruence.
  - intros Hne. destruct (Address_eqb a b) eqn:E; [|reflexivity].
    apply Address_eqb_eq in E. contradiction.
Qed.

(** X6.  [validateMetaTx] reports, in this order: [ErrZeroAddress] exactly
    when one of the three addresses is zero; [ErrInvalidAmount] exactly when
    the addresses are non-zero and the amount is nil or not positive;
    [ErrExpiredDeadline] exactly when addresses and amount pass and the
    deadline is 0.  It returns no other error.  [IsValidAddress] is [true]
    exactly on non-zero addresses. *)
Theorem validateMetaTx_errors (m : MetaTx) :
  let addresses_ok :=
    From m <> zero_address /\ To m <> zero_address /\ Token m <> zero_address in
  (validateMetaTx m = Some ErrZeroAddress <->
   From m = zero_address \/ To m = zero_address \/ Token m = zero_address)
  /\ (validateMetaTx m = Some ErrInvalidAmount <->
      addresses_ok
      /\ (Amount m = None \/ exists a, Amount m = Some a /\ a <= 0))
  /\ (validateMetaTx m = Some ErrExpiredDeadline <->
      addresses_ok /\ (exists a, Amount m = Some a /\ 0 < a) /\ Deadline m = 0)
  /\ (forall e, validateMetaTx m = Some e ->
        e = ErrZeroAddress \/ e = ErrInvalidAmount \/ e = ErrExpiredDeadline)
  /\ (forall a, IsValidAddress a = true <-> a <> zero_address).
Proof.
  intros addresses_ok. subst addresses_ok. unfold validateMetaTx.
  assert (Hvalid : forall a, IsValidAddress a = true <-> a <> zero_address).
  { intros a. unfold IsValidAddress. rewrite negb_true_iff. apply Address_eqb_neq. }
  destruct (Address_eqb (From m) zero_address) eqn:Ef.
  { apply Address_eqb_eq in Ef.
    split; [split; [now left|reflexivity]|].
    split; [split; [discriminate|now intros [[Hf _] _]]|].
    split; [split; [discriminate|now intros [[Hf _] _]]|].
    split; [|exact Hvalid]. intros e He. injection He as <-. now left. }
  destruct (Address_eqb (To m) zero_address) eqn:Et.
  { apply Address_eqb_eq in Et.
    split; [split; [now right; left|reflexivity]|].
    split; [split; [discriminate|now intros [(_ & Ht & _) _]]|].
    split; [split; [discriminate|now intros [(_ & Ht & _) _]]|].
    split; [|exact Hvalid]. intros e He. injection He as <-. now left. }
  destruct (Address_eqb (Token m) zero_address) eqn:Ek.
  { apply Address_eqb_eq in Ek.
    split; [split; [now right; right|reflexivity]|].
    split; [split; [discriminate|now intros [(_ & _ & Hk) _]]|].
    split; [split; [discriminate|now intros [(_ & _ & Hk) _]]|].
    split; [|exact Hvalid]. intros e He. injection He as <-. now left. }
  apply Address_eqb_neq in Ef, Et, Ek.
  assert (Hnz : ~ (From m = zero_address \/ To m = zero_address
                   \/ Token m = zero_address)) by (intros [?|[?|?]]; contradiction).
  unfold amount_invalid. destruct (Amount m) as [a|].
  - destruct (Z.sgn a <=? 0) eqn:Es.
    + apply Z.leb_le in Es.
      assert (Ha : a <= 0) by (destruct a; simpl in Es; lia).
      split; [split; [discriminate|intros Hz; now destruct Hnz]|].
      split; [split; [intros _; split; [now repeat split|right; now exists a]
                     |reflexivity]|].
      split; [split; [discriminate|]|].
      * intros (_ & (a' & Ha' & Hpos) & _). injection Ha' as <-. lia.
      * split; [|exact Hvalid]. intros e He. injection He as <-. right. now left.
    + apply Z.leb_gt in Es.
      assert (Ha : 0 < a) by (destruct a; simpl in Es; lia).
      destruct (Deadline m =? 0) eqn:Ed.
      * apply Z.eqb_eq in Ed.
        split; [split; [discriminate|intros Hz; now destruct Hnz]|].
        split; [split; [discriminate|]|].
        { intros (_ & [Hn | (a' & Ha' & Hle)]); [discriminate|].
          injection Ha' as <-. lia. }
        split; [split; [intros _; split; [now repeat split|];
                        split; [now exists a|exact Ed]
                       |reflexivity]|].
        split; [|exact Hvalid]. intros e He. injection He as <-. right. now right.
      * apply Z.eqb_neq in Ed.
        split; [split; [discriminate|intros Hz; now destruct Hnz]|].
        split; [split; [discriminate|]|].
        { intros (_ & [Hn | (a' & Ha' & Hle)]); [discriminate|].
          injection Ha' as <-. lia. }
        split; [split; [discriminate|now intros (_ & _ & Hd)]|].
        split; [|exact Hvalid]. discriminate.
  - split; [split; [discriminate|intros Hz; now destruct Hnz]|].
    split; [split; [intros _; split; [now repeat split|now left]|reflexivity]|].
    split; [split; [discriminate|]|].
    + intros (_ & (a' & Ha' & _) & _). discriminate.
    + split; [|exact Hvalid]. intros e He. injection He as <-. right. now left.
Qed.

(** X7.  Validation puts no upper bound on the amount: on a request that
    [validateMetaTx] accepts, [TransferData] (which the relay functions call
    next) panics exactly when the amount is [2^256] or more, and otherwise
    returns the 68 bytes of calldata for the amount itself. *)
Theorem validated_amount_may_overflow (m : MetaTx) :
  validateMetaTx m = None ->
  exists a, Amount m = Some a /\ 0 < a
    /\ (TransferData m = Panic <-> two256 <= a)
    /\ (a < two256 -> TransferData m = Ret (spec_transferCalldata (To m) a)).
Proof.
  intros Hv. apply validateMetaTx_ok in Hv.
  destruct Hv as (_ & _ & _ & (a & Ha & Hpos) & _).
  exists a. split; [exact Ha|]. split; [exact Hpos|]. split.
  - split.
    + intros Hp. destruct (Z.lt_ge_cases a two256) as [Hr|Hr]; [|exact Hr].
      rewrite (TransferData_in_range m a Ha) in Hp by lia. discriminate.
    + intros Hr. apply (TransferData_too_big m a Ha). lia.
  - intros Hr. apply TransferData_in_range; [exact Ha | lia].
Qed.

Lemma validated_amount_may_overflow_witness :
  exists a, Amount (NewMetaTx (address_of_Z 1) (address_of_Z 3) (address_of_Z 2)
                      (Some two256) 100000 0 2000000000) = Some a /\ 0 < a
    /\ (TransferData (NewMetaTx (address_of_Z 1) (address_of_Z 3) (address_of_Z 2)
                        (Some two256) 100000 0 2000000000) = Panic <-> two256 <= a)
    /\ (a < two256 ->
        TransferData (NewMetaTx (address_of_Z 1) (address_of_Z 3) (address_of_Z 2)
                        (Some two256) 100000 0 2000000000)
        = Ret (spec_transferCalldata (address_of_Z 3) a)).
Proof.
  exact (validated_amount_may_overflow
           (NewMetaTx (address_of_Z 1) (address_of_Z 3) (address_of_Z 2)
              (Some two256) 100000 0 2000000000) eq_refl).
Defined.

(** ** The checks before a relay *)

Section RelayChecks.
Variable clock : nat -> Z.

Lemma RelayMetaTxBatch_validate_all (batch : BatchMetaTxRequestList) :
  forall i,
    (forall k req, nth_error batch k = Some req -> relayable (clock (i + k)) req) ->
    RelayMetaTxBatch_validate clock batch i = None.
Proof.
  induction batch as [|req rest IH]; intros i Hall; [reflexivity|].
  destruct (Hall 0%nat req eq_refl) as [Hv Hd]. rewrite Nat.add_0_r in Hd.
  cbn [RelayMetaTxBatch_validate]. rewrite Hv.
  destruct (clock i >? Deadline (MetaTx_of req)) eqn:E.
  - apply Z.gtb_lt in E. lia.
  - apply IH. intros k r Hr.
    replace (S i + k)%nat with (i + S k)%nat by lia. now apply Hall.
Qed.

Lemma RelayMetaTxBatch_validate_at (pre : BatchMetaTxRequestList)
    (req : BatchMetaTxRequest) (post : BatchMetaTxRequestList) :
  forall i,
    (forall k r, nth_error pre k = Some r -> relayable (clock (i + k)) r) ->
    RelayMetaTxBatch_validate clock (pre ++ req :: post) i
    = match validateMetaTx (MetaTx_of req) with
      | Some e => Some (ErrInvalidMetaTxAt (i + List.length pre) e)
      | None =>
          if clock (i + List.length pre) >? Deadline (MetaTx_of req)
          then Some (ErrExpiredDeadlineAt (i + List.length pre))
          else RelayMetaTxBatch_validate clock post (S (i + List.length pre))
      end.
Proof.
  induction pre as [|r0 pre IH]; intros i Hall.
  - cbn [app List.length RelayMetaTxBatch_validate]. now rewrite Nat.add_0_r.
  - destruct (Hall 0%nat r0 eq_refl) as [Hv Hd]. rewrite Nat.add_0_r in Hd.
    cbn [app List.length RelayMetaTxBatch_validate]. rewrite Hv.
    destruct (clock i >? Deadline (MetaTx_of r0)) eqn:E;
      [apply Z.gtb_lt in E; lia|].
    rewrite IH.
    + now replace (S i + List.length pre)%nat
        with (i + S (List.length pre))%nat by lia.
    + intros k r Hr.
      replace (S i + k)%nat with (i + S k)%nat by lia. now apply Hall.
Qed.

End RelayChecks.

(** X8.  [RelayMetaTxBatch] reads the clock once for each request it gets
    to, and never submits an empty batch, nor a batch that holds a request
    [validateMetaTx] rejects or whose deadline lies before the reading taken
    for it.  It fails with [ErrEmptyBatch] on the empty batch; it goes on to
    submit the batch, with the refund receiver given, when every request
    passes [validateMetaTx] and has a deadline not before its own reading;
    otherwise it fails at the first request that does not pass, with the
    index of that request and, for a validation error, the error.  No
    assumption is made on the clock, which may advance during the loop.
    [RelayMetaTxBatchAtomic] does the same with the zero address as refund
    receiver. *)
Theorem RelayMetaTxBatch_outcome (H : Type) (clock : nat -> Z)
    (submit : BatchMetaTxRequestList -> Address -> outcome H)
    (refundReceiver : Address) :
  RelayMetaTxBatch clock submit [] refundReceiver = Fail ErrEmptyBatch
  /\ (forall batch, batch <> [] ->
        (forall k req, nth_error batch k = Some req -> relayable (clock k) req) ->
        RelayMetaTxBatch clock submit batch refundReceiver = submit batch refundReceiver
        /\ RelayMetaTxBatchAtomic clock submit batch = submit batch zero_address)
  /\ (forall pre req post e,
        (forall k r, nth_error pre k = Some r -> relayable (clock k) r) ->
        validateMetaTx (MetaTx_of req) = Some e ->
        RelayMetaTxBatch clock submit (pre ++ req :: post) refundReceiver
        = Fail (ErrInvalidMetaTxAt (List.length pre) e)
        /\ RelayMetaTxBatchAtomic clock submit (pre ++ req :: post)
           = Fail (ErrInvalidMetaTxAt (List.length pre) e))
  /\ (forall pre req post,
        (forall k r, nth_error pre k = Some r -> relayable (clock k) r) ->
        validateMetaTx (MetaTx_of req) = None ->
        Deadline (MetaTx_of req) < clock (List.length pre) ->
        RelayMetaTxBatch clock submit (pre ++ req :: post) refundReceiver
        = Fail (ErrExpiredDeadlineAt (List.length pre))
        /\ RelayMetaTxBatchAtomic clock submit (pre ++ req :: post)
           = Fail (ErrExpiredDeadlineAt (List.length pre))).
Proof.
  assert (Hnonempty : forall (pre : BatchMetaTxRequestList) req post,
            (List.length (pre ++ req :: post) =? 0)%nat = false).
  { intros pre req post. rewrite length_app. simpl.
    apply Nat.eqb_neq. lia. }
  split; [reflexivity|]. split; [|split].
  - intros batch Hne Hall. unfold RelayMetaTxBatchAtomic, RelayMetaTxBatch.
    destruct batch as [|r0 rest]; [contradiction|]. cbn [List.length Nat.eqb].
    now rewrite (RelayMetaTxBatch_validate_all clock (r0 :: rest) 0%nat Hall).
  - intros pre req post e Hall Hv.
    unfold RelayMetaTxBatchAtomic, RelayMetaTxBatch.
    rewrite Hnonempty, (RelayMetaTxBatch_validate_at clock pre req post 0%nat Hall), Hv.
    now split.
  - intros pre req post Hall Hv Hd.
    unfold RelayMetaTxBatchAtomic, RelayMetaTxBatch.
    rewrite Hnonempty, (RelayMetaTxBatch_validate_at clock pre req post 0%nat Hall), Hv.
    cbn [Nat.add].
    assert (E : (clock (List.length pre) >? Deadline (MetaTx_of req)) = true)
      by (apply Z.gtb_lt; exact Hd).
    rewrite E. now split.
Qed.

(** ** Deadlines *)

(** X9.  [NewMetaTxWithDelay] sets the deadline to [now + delaySeconds] in
    [uint64].  While the sum stays below [2^64] the deadline is the sum and
    [ValidateDeadline] accepts it at every time up to it and reports
    [ErrExpiredDeadline] at every later time.  When the sum reaches [2^64] it
    wraps around to a deadline before [now], which [ValidateDeadline] already
    reports as expired at [now]. *)
Theorem NewMetaTxWithDelay_deadline (now : Z) (from to token : Address)
    (amount : option Z) (gas nonce delaySeconds : Z) :
  is_uint64 now -> is_uint64 delaySeconds ->
  let m := NewMetaTxWithDelay now from to token amount gas nonce delaySeconds in
  m = mkMetaTx from to token amount gas nonce ((now + delaySeconds) mod two64)
  /\ (now + delaySeconds < two64 ->
      Deadline m = now + delaySeconds
      /\ (forall later, later <= now + delaySeconds ->
            ValidateDeadline later (Deadline m) = None)
      /\ (forall later, now + delaySeconds < later ->
            ValidateDeadline later (Deadline m) = Some ErrExpiredDeadline))
  /\ (two64 <= now + delaySeconds ->
      Deadline m = now + delaySeconds - two64
      /\ Deadline m < now
      /\ ValidateDeadline now (Deadline m) = Some ErrExpiredDeadline).
Proof.
  intros Hn Hd m. subst m. unfold NewMetaTxWithDelay, NewMetaTx, add_uint64.
  cbn [Deadline]. unfold is_uint64, two64 in *. unfold ValidateDeadline.
  split; [reflexivity|]. split.
  - intros Hsum. rewrite Z.mod_small by lia.
    split; [reflexivity|]. split; intros later Hl.
    + destruct (later >? now + delaySeconds) eqn:E; [|reflexivity].
      apply Z.gtb_lt in E. lia.
    + destruct (later >? now + delaySeconds) eqn:E; [reflexivity|].
      rewrite Z.gtb_ltb in E. apply Z.ltb_ge in E. lia.
  - intros Hsum.
    assert (Hm : (now + delaySeconds) mod 2 ^ 64 = now + delaySeconds - 2 ^ 64).
    { symmetry. apply (Z.mod_unique _ _ 1); lia. }
    rewrite Hm. split; [reflexivity|]. split; [lia|].
    destruct (now >? now + delaySeconds - 2 ^ 64) eqn:E; [reflexivity|].
    rewrite Z.gtb_ltb in E. apply Z.ltb_ge in E. lia.
Qed.

Lemma NewMetaTxWithDelay_deadline_witness :
  Deadline (NewMetaTxWithDelay 1700000000 zero_address zero_address zero_address
              None 0 0 3600) = 1700000000 + 3600.
Proof.
  refine (proj1 (proj1 (proj2 (NewMetaTxWithDelay_deadline 1700000000 zero_address
                                 zero_address zero_address None 0 0 3600 _ _)) _));
    unfold is_uint64, two64; lia.
Defined.

(** ** Batches of one sender *)

Lemma ValidateBatchFromSameUser_from_all (expected : Address)
    (batch : BatchMetaTxRequestList) :
  forall i,
    ValidateBatchFromSameUser_from expected batch i = None <->
    (forall req, In req batch -> From (MetaTx_of req) = expected).
Proof.
  induction batch as [|req rest IH]; intros i; cbn [ValidateBatchFromSameUser_from].
  - split; [intros _ req []|reflexivity].
  - destruct (Address_eqb (From (MetaTx_of req)) expected) eqn:E; cbn [negb].
    + apply Address_eqb_eq in E. rewrite IH. split.
      * intros Hrest r [<- | Hr]; [exact E | now apply Hrest].
      * intros Hall r Hr. apply Hall. now right.
    + apply Address_eqb_neq in E. split; [discriminate|].
      intros Hall. exfalso. apply E. apply Hall. now left.
Qed.

Lemma ValidateBatchFromSameUser_from_first (expected : Address)
    (batch : BatchMetaTxRequestList) :
  forall i err,
    ValidateBatchFromSameUser_from expected batch i = Some err <->
    exists pre req post,
      batch = pre ++ req :: post
      /\ (forall r, In r pre -> From (MetaTx_of r) = expected)
      /\ From (MetaTx_of req) <> expected
      /\ err = ErrDifferentFromAt (i + List.length pre) expected
                 (From (MetaTx_of req)).
Proof.
  induction batch as [|req0 rest IH]; intros i err;
    cbn [ValidateBatchFromSameUser_from].
  - split; [discriminate|]. intros (pre & req & post & Hb & _).
    destruct pre; discriminate.
  - destruct (Address_eqb (From (MetaTx_of req0)) expected) eqn:E; cbn [negb].
    + apply Address_eqb_eq in E. rewrite IH. split.
      * intros (pre & req & post & -> & Hpre & Hne & ->).
        exists (req0 :: pre), req, post. split; [reflexivity|].
        split; [intros r [<- | Hr]; [exact E | now apply Hpre]|].
        split; [exact Hne|]. cbn [List.length].
        now replace (i + S (List.length pre))%nat with (S i + List.length pre)%nat by lia.
      * intros ([|r0 pre] & req & post & Hb & Hpre & Hne & ->);
          cbn [app] in Hb; injection Hb as <- ->; [contradiction|].
        exists pre, req, post. split; [reflexivity|].
        split; [intros r Hr; apply Hpre; now right|].
        split; [exact Hne|]. cbn [List.length].
        now replace (i + S (List.length pre))%nat with (S i + List.length pre)%nat by lia.
    + apply Address_eqb_neq in E. split.
      * intros Herr. injection Herr as <-. exists [], req0, rest.
        split; [reflexivity|]. split; [intros r []|]. split; [exact E|].
        cbn [List.length]. now rewrite Nat.add_0_r.
      * intros ([|r0 pre] & req & post & Hb & Hpre & Hne & ->);
          cbn [app] in Hb; injection Hb as <- ->.
        -- cbn [List.length]. now rewrite Nat.add_0_r.
        -- exfalso. apply E. apply Hpre. now left.
Qed.

(** X10.  [ValidateBatchFromSameUser] accepts the empty batch, and a
    non-empty batch exactly when every request has the sender of the first.
    Otherwise it reports the first request whose sender differs, with its
    index (which is never 0), the sender of the first request and the sender
    found. *)
Theorem ValidateBatchFromSameUser_outcome :
  ValidateBatchFromSameUser [] = None
  /\ (forall first rest,
        ValidateBatchFromSameUser (first :: rest) = None <->
        (forall req, In req rest ->
           From (MetaTx_of req) = From (MetaTx_of first)))
  /\ (forall first rest err,
        ValidateBatchFromSameUser (first :: rest) = Some err <->
        exists pre req post,
          rest = pre ++ req :: post
          /\ (forall r, In r pre -> From (MetaTx_of r) = From (MetaTx_of first))
          /\ From (MetaTx_of req) <> From (MetaTx_of first)
          /\ err = ErrDifferentFromAt (S (List.length pre))
                     (From (MetaTx_of first)) (From (MetaTx_of req))).
Proof.
  split; [reflexivity|]. split.
  - intros first rest. unfold ValidateBatchFromSameUser. cbv zeta.
    rewrite ValidateBatchFromSameUser_from_all. split.
    + intros Hall req Hr. apply Hall. now right.
    + intros Hrest req [<- | Hr]; [reflexivity | now apply Hrest].
  - intros first rest err. unfold ValidateBatchFromSameUser. cbv zeta.
    rewrite ValidateBatchFromSameUser_from_first. split.
    + intros ([|r0 pre] & req & post & Hb & Hpre & Hne & ->);
        cbn [app] in Hb; injection Hb as <- ->; [contradiction|].
      exists pre, req, post. split; [reflexivity|].
      split; [intros r Hr; apply Hpre; now right|]. now split.
    + intros (pre & req & post & -> & Hpre & Hne & ->).
      exists (first :: pre), req, post. split; [reflexivity|].
      split; [intros r [<- | Hr]; [reflexivity | now apply Hpre]|]. now split.
Qed.

Lemma sequential_batch_fields (from token : Address) (gas start deadline : Z)
    (recipients : list Address) (amounts : list (option Z)) :
  forall i m,
    In m (sequential_batch from token gas start deadline i recipients amounts) ->
    From m = from /\ Token m = token /\ Gas m = gas /\ Deadline m = deadline.
Proof.
  revert amounts; induction recipients as [|r rs IH]; intros [|a amounts] i m Hin;
    cbn [sequential_batch] in Hin; try contradiction.
  destruct Hin as [<- | Hin]; [now repeat split | now apply (IH amounts (S i))].
Qed.

(** X11.  On lists of equal length, [NewMetaTxBatchWithDefaultGas] returns
    one request per recipient, each with the sender, token and deadline
    given and the gas limit 100000; a batch over these requests passes both
    [ValidateBatchFromSameUser] and [ValidateBatchNonces] from the starting
    nonce. *)
Theorem NewMetaTxBatchWithDefaultGas_batch (from token : Address)
    (startingNonce deadline : Z) (recipients : list Address)
    (amounts : list (option Z)) :
  List.length recipients = List.length amounts ->
  exists metaTxs,
    NewMetaTxBatchWithDefaultGas from recipients token amounts startingNonce deadline
    = Ret metaTxs
    /\ List.length metaTxs = List.length recipients
    /\ (forall m, In m metaTxs ->
          From m = from /\ Token m = token /\ Gas m = 100000 /\ Deadline m = deadline)
    /\ (forall batch, List.map MetaTx_of batch = metaTxs ->
          ValidateBatchFromSameUser batch = None
          /\ ValidateBatchNonces batch startingNonce = None).
Proof.
  intros Hlen. unfold NewMetaTxBatchWithDefaultGas. eexists.
  split; [now apply NewMetaTxBatch_equal_lengths|].
  split; [now apply sequential_batch_length|]. split.
  - intros m Hin. now apply sequential_batch_fields in Hin.
  - intros batch Hmap. split.
    + destruct batch as [|first rest]; [reflexivity|].
      assert (Hf : forall r, In r (first :: rest) -> From (MetaTx_of r) = from).
      { intros r Hin. apply (in_map MetaTx_of) in Hin. rewrite Hmap in Hin.
        now apply sequential_batch_fields in Hin. }
      unfold ValidateBatchFromSameUser. cbv zeta.
      apply ValidateBatchFromSameUser_from_all. intros req Hr.
      rewrite (Hf req Hr), (Hf first (or_introl eq_refl)). reflexivity.
    + now apply (ValidateBatchNonces_of_sequential from token 100000 startingNonce
                   deadline recipients amounts).
Qed.

Lemma NewMetaTxBatchWithDefaultGas_batch_witness :
  exists metaTxs,
    NewMetaTxBatchWithDefaultGas (address_of_Z 1) [address_of_Z 2; address_of_Z 3]
      (address_of_Z 4) [Some 5; Some 6] 7 2000000000 = Ret metaTxs
    /\ List.length metaTxs = 2%nat.
Proof.
  destruct (NewMetaTxBatchWithDefaultGas_batch (address_of_Z 1) (address_of_Z 4)
              7 2000000000 [address_of_Z 2; address_of_Z 3] [Some 5; Some 6] eq_refl)
    as (metaTxs & Hrun & Hlen & _).
  exists metaTxs. split; [exact Hrun | exact Hlen].
Defined.

(** ** Signing *)

Section SignFacts.
Context `{C : Crypto}.

Lemma SignMetaTx_fst (m : MetaTx) (key : PrivateKey) (ds : list byte) (w : World) :
  fst (SignMetaTx m key ds w) = sign_outcome m key ds.
Proof.
  rewrite SignMetaTx_run. unfold sign_outcome.
  now destruct (HashMetaTx m ds).
Qed.

Lemma VerifyMetaTxSignature_fst (req : BatchMetaTxRequest) (ds : list byte)
    (w : World) :
  fst (VerifyMetaTxSignature (MetaTx_of req) (Signature_of req) ds w)
  = verify_outcome ds req.
Proof.
  rewrite VerifyMetaTxSignature_run. unfold verify_outcome.
  now destruct (HashMetaTx (MetaTx_of req) ds).
Qed.

Lemma CreateBatchRequest_fst (m : MetaTx) (key : PrivateKey) (ds : list byte)
    (w : World) :
  fst (CreateBatchRequest m key ds w) = create_outcome key ds m.
Proof.
  unfold CreateBatchRequest, bindM, wrapM, retM, create_outcome.
  rewrite <- (SignMetaTx_fst m key ds w).
  destruct (SignMetaTx m key ds w) as [[sig|e|] w']; reflexivity.
Qed.

Lemma FromBytes_Ret (sigBytes : list byte) (sig : Signature) :
  FromBytes zero_Signature sigBytes = (sig, None) ->
  List.length sigBytes = 65%nat /\ ToBytes sig = sigBytes.
Proof.
  intros Hf.
  destruct (Nat.eq_dec (List.length sigBytes) 65) as [Hlen|Hlen].
  - split; [exact Hlen|].
    rewrite <- (ToBytes_FromBytes zero_Signature sigBytes Hlen). now rewrite Hf.
  - unfold FromBytes in Hf. apply Nat.eqb_neq in Hlen. rewrite Hlen in Hf.
    discriminate.
Qed.

Lemma sign_outcome_Ret (m : MetaTx) (key : PrivateKey) (ds : list byte)
    (sig : Signature) :
  sign_outcome m key ds = Ret sig <->
  exists hash,
    HashMetaTx m ds = Ret hash
    /\ crypto_Sign hash key = inr (ToBytes sig).
Proof.
  unfold sign_outcome. split.
  - destruct (HashMetaTx m ds) as [hash|e|]; try discriminate.
    destruct (crypto_Sign hash key) as [e|sigBytes] eqn:Es; try discriminate.
    destruct (FromBytes zero_Signature sigBytes) as [sig' [err|]] eqn:Ef;
      try discriminate.
    intros Hs. injection Hs as ->. apply FromBytes_Ret in Ef.
    destruct Ef as [_ Ef]. exists hash. split; [reflexivity|]. now rewrite Ef.
  - intros (hash & -> & ->).
    pose proof (FromBytes_layout zero_Signature (SigR sig) (SigS sig) (SigV sig)) as Hl.
    rewrite <- ToBytes_layout in Hl. rewrite Hl. now destruct sig.
Qed.

End SignFacts.

(** X12.  [SignMetaTx] calls the signing primitive once, on the digest of
    [HashMetaTx], and only when there is a digest: if [HashMetaTx] panics it
    panics without a call.  An error of the primitive comes back wrapped; an
    answer that is not 65 bytes long gives [ErrInvalidSignatureLength],
    wrapped; an answer of 65 bytes gives the signature whose [ToBytes] are
    those bytes. *)
Theorem SignMetaTx_outcome `{C : Crypto} (m : MetaTx) (key : PrivateKey)
    (ds : list byte) (w : World) :
  (HashMetaTx m ds = Panic -> SignMetaTx m key ds w = (Panic, w))
  /\ (forall hash, HashMetaTx m ds = Ret hash ->
        snd (SignMetaTx m key ds w) = mkWorld (polls w) (trace w ++ [EvSign hash])
        /\ (forall e, crypto_Sign hash key = inl e ->
              fst (SignMetaTx m key ds w) = Fail (ErrSignHash e))
        /\ (forall sigBytes, crypto_Sign hash key = inr sigBytes ->
              List.length sigBytes <> 65%nat ->
              fst (SignMetaTx m key ds w)
              = Fail (ErrParseSignature ErrInvalidSignatureLength))
        /\ (forall sigBytes, crypto_Sign hash key = inr sigBytes ->
              List.length sigBytes = 65%nat ->
              exists sig, fst (SignMetaTx m key ds w) = Ret sig
                          /\ ToBytes sig = sigBytes)).
Proof.
  rewrite SignMetaTx_run. split.
  - intros Hp. now rewrite Hp.
  - intros hash Hh. rewrite Hh. cbn [fst snd]. split; [reflexivity|].
    split; [|split].
    + intros e He. now rewrite He.
    + intros sb Hs Hlen. rewrite Hs. unfold FromBytes.
      apply Nat.eqb_neq in Hlen. now rewrite Hlen.
    + intros sb Hs Hlen. rewrite Hs.
      destruct (FromBytes zero_Signature sb) as [sig [err|]] eqn:Ef.
      * unfold FromBytes in Ef. rewrite Hlen in Ef. discriminate.
      * exists sig. split; [reflexivity|]. now apply FromBytes_Ret in Ef.
Qed.

Section SignVerify.
Context `{C : Crypto}.
Variable public_of : PrivateKey -> PublicKey.

(** The primitives fit together: recovery, on a digest and the 65 bytes
    the signing primitive returned for it, yields the public key of the
    signing key. *)
Hypothesis recovers :
  forall hash key sigBytes,
    crypto_Sign hash key = inr sigBytes ->
    List.length sigBytes = 65%nat ->
    crypto_SigToPub hash sigBytes = inr (public_of key).

Lemma verify_outcome_signed (m : MetaTx) (key : PrivateKey) (ds : list byte)
    (sig : Signature) :
  sign_outcome m key ds = Ret sig ->
  verify_outcome ds (mkBatchMetaTxRequest m sig)
  = Ret (Address_eqb (AddressFromPrivateKey public_of key) (From m)).
Proof.
  intros Hs. apply sign_outcome_Ret in Hs. destruct Hs as (hash & Hh & Hsign).
  unfold verify_outcome. cbn [MetaTx_of Signature_of]. rewrite Hh.
  now rewrite (recovers hash key (ToBytes sig) Hsign (ToBytes_length sig)).
Qed.

End SignVerify.

(** X13.  If recovery undoes signing (it yields the public key of the key
    that signed), then a signature [SignMetaTx] returns for a request
    verifies against the same request and domain separator with the result
    [AddressFromPrivateKey key == From]: [true] when the request names the
    signer as sender, [false] otherwise, and never an error. *)
Theorem SignMetaTx_then_verify `{C : Crypto} (public_of : PrivateKey -> PublicKey)
    (m : MetaTx) (key : PrivateKey) (ds : list byte) (w w' : World)
    (sig : Signature) :
  (forall hash k sigBytes,
     crypto_Sign hash k = inr sigBytes ->
     List.length sigBytes = 65%nat ->
     crypto_SigToPub hash sigBytes = inr (public_of k)) ->
  fst (SignMetaTx m key ds w) = Ret sig ->
  fst (VerifyMetaTxSignature m sig ds w')
  = Ret (Address_eqb (AddressFromPrivateKey public_of key) (From m))
  /\ (From m = AddressFromPrivateKey public_of key ->
      fst (VerifyMetaTxSignature m sig ds w') = Ret true)
  /\ (From m <> AddressFromPrivateKey public_of key ->
      fst (VerifyMetaTxSignature m sig ds w') = Ret false).
Proof.
  intros Hrec Hs. rewrite SignMetaTx_fst in Hs.
  pose proof (verify_outcome_signed public_of Hrec m key ds sig Hs) as Hv.
  rewrite <- (VerifyMetaTxSignature_fst (mkBatchMetaTxRequest m sig) ds w') in Hv.
  cbn [MetaTx_of Signature_of] in Hv. rewrite Hv.
  split; [reflexivity|]. split.
  - intros <-. f_equal. now apply Address_eqb_eq.
  - intros Hne. f_equal. apply Address_eqb_neq. congruence.
Qed.

Lemma toy_crypto_recovers (hash : list byte) (key : Address) (sigBytes : list byte) :
  crypto_Sign (Crypto := toy_crypto) hash key = inr sigBytes ->
  List.length sigBytes = 65%nat ->
  crypto_SigToPub (Crypto := toy_crypto) hash sigBytes = inr key.
Proof.
  cbv beta iota delta [crypto_Sign crypto_SigToPub toy_crypto].
  intros Hs _.
  apply (f_equal (fun r => match r with inr b => b | inl _ => [] end)) in Hs.
  cbv beta iota in Hs. subst sigBytes.
  assert (Hn : nth 64 (Address_Bytes key ++ repeat x00 45) x00 = x00).
  { rewrite app_nth2 by (rewrite Address_Bytes_length; lia).
    rewrite Address_Bytes_length. reflexivity. }
  rewrite Hn. change (1 <? Bytes.Z_of_byte x00) with false. cbv iota.
  apply f_equal. unfold Address_Bytes. apply (vcopy_to_list (repeat x00 45)).
Qed.

Lemma SignMetaTx_then_verify_witness :
  fst (VerifyMetaTxSignature (H := toy_crypto) sample_MetaTx
         (mkSignature x00 (Slice.vcopy (Vector.const x00 32)
                             (Address_Bytes (address_of_Z 1) ++ repeat x00 12))
                      (Vector.const x00 32)) [] initial_world)
  = Ret true.
Proof.
  refine (proj1 (proj2 (SignMetaTx_then_verify (C := toy_crypto) (fun k => k)
                          sample_MetaTx (address_of_Z 1) [] initial_world
                          initial_world _ toy_crypto_recovers _)) _).
  - vm_compute. reflexivity.
  - vm_compute. reflexivity.
Defined.

(** ** The batch operations under a context that is never done *)

Section CollectFacts.
Context {A B : Type}.
Variables (core : A -> outcome B) (tag : nat -> error -> error).

Lemma collect_Ret (xs : list A) :
  forall i vs,
    collect core tag i xs = Ret vs <-> Forall2 (fun x v => core x = Ret v) xs vs.
Proof.
  induction xs as [|x rest IH]; intros i vs; cbn [collect].
  - split.
    + intros Hr. injection Hr as <-. constructor.
    + intros Hall. inversion Hall. reflexivity.
  - split.
    + destruct (core x) as [v|e|] eqn:Ex; try discriminate.
      destruct (collect core tag (S i) rest) as [vs'|e|] eqn:Er; try discriminate.
      intros Hr. injection Hr as <-. constructor; [exact Ex|]. now apply (IH (S i)).
    + intros Hall. inversion Hall as [|x' v rest' vs' Hx Hrest]; subst.
      rewrite Hx. apply (IH (S i)) in Hrest. now rewrite Hrest.
Qed.

Lemma collect_stops (pre : list A) (x : A) (post : list A) (vs : list B) :
  forall i,
    Forall2 (fun y v => core y = Ret v) pre vs ->
    collect core tag i (pre ++ x :: post)
    = match core x with
      | Ret v =>
          match collect core tag (S (i + List.length pre)) post with
          | Ret rest => Ret (vs ++ v :: rest)
          | Fail e => Fail e
          | Panic => Panic
          end
      | Fail e => Fail (tag (i + List.length pre) e)
      | Panic => Panic
      end.
Proof.
  intros i Hall. revert i.
  induction Hall as [|y v pre vs Hy _ IH]; intros i; cbn [app collect List.length].
  - rewrite Nat.add_0_r. destruct (core x); reflexivity.
  - rewrite Hy, (IH (S i)).
    replace (S i + List.length pre)%nat with (i + S (List.length pre))%nat by lia.
    destruct (core x); try reflexivity.
    destruct (collect core tag (S (i + S (List.length pre))) post); reflexivity.
Qed.

Lemma collect_length (xs : list A) :
  forall i vs, collect core tag i xs = Ret vs -> List.length vs = List.length xs.
Proof.
  intros i vs Hr. apply collect_Ret in Hr.
  induction Hr; cbn [List.length]; congruence.
Qed.

Variables (ctx : Ctx) (body : nat -> A -> M B) (zero : B).
Hypothesis never_done : forall k, ctx k = None.
Hypothesis body_result : forall i x w, fst (body i x w) = wrap (tag i) (core x).

Lemma range_loop_collect (xs : list A) :
  forall done w,
    fst (range_loop ctx body xs (List.length done)
           (done ++ Slice.make zero (List.length xs)) w)
    = match collect core tag (List.length done) xs with
      | Ret vs => Ret (done ++ vs)
      | Fail e => Fail e
      | Panic => Panic
      end.
Proof.
  induction xs as [|x rest IH]; intros done w.
  - cbn. now rewrite app_nil_r.
  - rewrite (range_loop_step ctx body x rest _ _ w (never_done _)).
    cbn [collect].
    pose proof (body_result (List.length done) x
                  (mkWorld (S (polls w)) (trace w ++ [EvPoll]))) as Hb.
    destruct (body (List.length done) x _) as [o w'].
    cbn [fst] in Hb. subst o.
    destruct (core x) as [v|e|]; cbn [wrap]; try reflexivity.
    cbn [List.length Slice.make repeat]. rewrite store_next.
    replace (S (List.length done)) with (List.length (done ++ [v]))
      by (rewrite length_app; simpl; lia).
    rewrite IH.
    destruct (collect core tag (List.length (done ++ [v])) rest);
      try reflexivity.
    now rewrite <- app_assoc.
Qed.

End CollectFacts.

Section BatchResults.
Context `{C : Crypto}.
Variables (ctx : Ctx) (ds : list byte).
Hypothesis never_done : forall k, ctx k = None.

Lemma VerifyBatchRequests_collect (batch : BatchMetaTxRequestList) (w : World) :
  fst (VerifyBatchRequests ctx batch ds w)
  = collect (verify_outcome ds) ErrVerifyAt 0 batch.
Proof.
  assert (Hbody : forall i req w0,
            fst (wrapM (ErrVerifyAt i)
                   (VerifyMetaTxSignature (MetaTx_of req) (Signature_of req) ds) w0)
            = wrap (ErrVerifyAt i) (verify_outcome ds req)).
  { intros i req w0. unfold wrapM.
    rewrite <- (VerifyMetaTxSignature_fst req ds w0).
    now destruct (VerifyMetaTxSignature _ _ ds w0). }
  etransitivity;
    [exact (range_loop_collect (verify_outcome ds) ErrVerifyAt ctx _ false
              never_done Hbody batch [] w)|].
  cbn [List.length app]. now destruct (collect _ _ 0%nat batch).
Qed.

Lemma CreateBatchFromSingleUser_collect (metaTxs : list MetaTx) (key : PrivateKey)
    (w : World) :
  fst (CreateBatchFromSingleUser ctx metaTxs key ds w)
  = collect (create_outcome key ds) ErrCreateBatchRequestAt 0 metaTxs.
Proof.
  assert (Hbody : forall i m w0,
            fst (wrapM (ErrCreateBatchRequestAt i) (CreateBatchRequest m key ds) w0)
            = wrap (ErrCreateBatchRequestAt i) (create_outcome key ds m)).
  { intros i m w0. unfold wrapM.
    rewrite <- (CreateBatchRequest_fst m key ds w0).
    now destruct (CreateBatchRequest m key ds w0). }
  etransitivity;
    [exact (range_loop_collect (create_outcome key ds) ErrCreateBatchRequestAt ctx _
              zero_BatchMetaTxRequest never_done Hbody metaTxs [] w)|].
  cbn [List.length app]. now destruct (collect _ _ 0%nat metaTxs).
Qed.

End BatchResults.

(** X14.  Under a context that is never done, [VerifyBatchRequests] returns
    what a traversal of the batch gives that verifies each request as
    [VerifyMetaTxSignature] does and stops at the first request that does
    not return: the vector of booleans, one per request and in order, when
    every request returns one; otherwise, for the first request whose recovery
    fails, that error wrapped with the index of the request. *)
Theorem VerifyBatchRequests_results `{C : Crypto} (ctx : Ctx) (ds : list byte)
    (batch : BatchMetaTxRequestList) (w : World) :
  (forall k, ctx k = None) ->
  fst (VerifyBatchRequests ctx batch ds w)
  = collect (verify_outcome ds) ErrVerifyAt 0 batch
  /\ (forall req w0,
        fst (VerifyMetaTxSignature (MetaTx_of req) (Signature_of req) ds w0)
        = verify_outcome ds req)
  /\ (forall results,
        fst (VerifyBatchRequests ctx batch ds w) = Ret results <->
        Forall2 (fun req b => verify_outcome ds req = Ret b) batch results)
  /\ (forall results,
        fst (VerifyBatchRequests ctx batch ds w) = Ret results ->
        List.length results = List.length batch)
  /\ (forall pre req post bs e,
        batch = pre ++ req :: post ->
        Forall2 (fun r b => verify_outcome ds r = Ret b) pre bs ->
        verify_outcome ds req = Fail e ->
        fst (VerifyBatchRequests ctx batch ds w) = Fail (ErrVerifyAt (List.length pre) e)).
Proof.
  intros Hctx. rewrite (VerifyBatchRequests_collect ctx ds Hctx batch w).
  split; [reflexivity|]. split; [intros req w0; apply VerifyMetaTxSignature_fst|].
  split; [intros results; apply collect_Ret|].
  split; [intros results; apply collect_length|].
  intros pre req post bs e -> Hpre He.
  rewrite (collect_stops (verify_outcome ds) ErrVerifyAt pre req post bs 0%nat Hpre).
  now rewrite He.
Qed.

Lemma VerifyBatchRequests_results_witness :
  fst (VerifyBatchRequests (H := toy_crypto) background
         [mkBatchMetaTxRequest sample_MetaTx zero_Signature] [] initial_world)
  = collect (verify_outcome (H := toy_crypto) []) ErrVerifyAt 0
      [mkBatchMetaTxRequest sample_MetaTx zero_Signature].
Proof.
  exact (proj1 (VerifyBatchRequests_results (C := toy_crypto) background []
                  [mkBatchMetaTxRequest sample_MetaTx zero_Signature] initial_world
                  (fun _ => eq_refl))).
Defined.

Lemma create_outcome_Ret `{C : Crypto} (key : PrivateKey) (ds : list byte)
    (m : MetaTx) (req : BatchMetaTxRequest) :
  create_outcome key ds m = Ret req ->
  MetaTx_of req = m /\ sign_outcome m key ds = Ret (Signature_of req).
Proof.
  unfold create_outcome.
  destruct (sign_outcome m key ds) as [sig|e|]; cbn [wrap]; try discriminate.
  intros Hr. injection Hr as <-. now split.
Qed.

(** X15.  Under a context that is never done, [CreateBatchFromSingleUser]
    returns what a traversal gives that signs each request as
    [CreateBatchRequest] does and stops at the first that does not return:
    on success one signed request per [MetaTx], in order, each holding its
    [MetaTx] unchanged beside the signature [SignMetaTx] gives for it;
    otherwise the error of the first request that fails, wrapped with its
    index. *)
Theorem CreateBatchFromSingleUser_results `{C : Crypto} (ctx : Ctx) (ds : list byte)
    (metaTxs : list MetaTx) (key : PrivateKey) (w : World) :
  (forall k, ctx k = None) ->
  fst (CreateBatchFromSingleUser ctx metaTxs key ds w)
  = collect (create_outcome key ds) ErrCreateBatchRequestAt 0 metaTxs
  /\ (forall m w0, fst (CreateBatchRequest m key ds w0) = create_outcome key ds m)
  /\ (forall batch,
        fst (CreateBatchFromSingleUser ctx metaTxs key ds w) = Ret batch ->
        List.length batch = List.length metaTxs
        /\ Forall2 (fun m req =>
                      MetaTx_of req = m
                      /\ forall w0, fst (SignMetaTx m key ds w0) = Ret (Signature_of req))
             metaTxs batch)
  /\ (forall pre m post reqs e,
        metaTxs = pre ++ m :: post ->
        Forall2 (fun m' req => create_outcome key ds m' = Ret req) pre reqs ->
        create_outcome key ds m = Fail e ->
        fst (CreateBatchFromSingleUser ctx metaTxs key ds w)
        = Fail (ErrCreateBatchRequestAt (List.length pre) e)).
Proof.
  intros Hctx. rewrite (CreateBatchFromSingleUser_collect ctx ds Hctx metaTxs key w).
  split; [reflexivity|]. split; [intros m w0; apply CreateBatchRequest_fst|].
  split.
  - intros batch Hr. split; [now apply collect_length in Hr|].
    apply collect_Ret in Hr.
    induction Hr as [|m req ms reqs Hm _ IH]; constructor; [|exact IH].
    apply create_outcome_Ret in Hm. destruct Hm as [Hm Hs].
    split; [exact Hm|]. intros w0. now rewrite SignMetaTx_fst.
  - intros pre m post reqs e -> Hpre He.
    rewrite (collect_stops (create_outcome key ds) ErrCreateBatchRequestAt
               pre m post reqs 0%nat Hpre).
    now rewrite He.
Qed.

Lemma CreateBatchFromSingleUser_results_witness :
  fst (CreateBatchFromSingleUser (H := toy_crypto) background [sample_MetaTx]
         (address_of_Z 1) [] initial_world)
  = collect (create_outcome (H := toy_crypto) (address_of_Z 1) [])
      ErrCreateBatchRequestAt 0 [sample_MetaTx].
Proof.
  exact (proj1 (CreateBatchFromSingleUser_results (C := toy_crypto) background []
                  [sample_MetaTx] (address_of_Z 1) initial_world
                  (fun _ => eq_refl))).
Defined.

(** ** One key for every request *)

Lemma range_loop_ext {A B : Type} (ctx : Ctx) (body1 body2 : nat -> A -> M B)
    (xs : list A) :
  forall i out w,
    (forall k x w0, (i <= k < i + List.length xs)%nat -> body1 k x w0 = body2 k x w0) ->
    range_loop ctx body1 xs i out w = range_loop ctx body2 xs i out w.
Proof.
  induction xs as [|x rest IH]; intros i out w Hext; [reflexivity|].
  cbn [range_loop]. unfold bindM.
  destruct (check_cancelled ctx w) as [[u|e|] w1]; try reflexivity.
  rewrite (Hext i x w1) by (cbn [List.length]; lia).
  destruct (body2 i x w1) as [[v|e|] w2]; try reflexivity.
  apply IH. intros k y w0 Hk. apply Hext. cbn [List.length]. lia.
Qed.

(** X16.  [CreateBatchFromMetaTxs] compares the two lengths before anything
    else: when they differ it returns the mismatch error with both lengths,
    without polling the context or calling the signing primitive.  Given the
    same key once per request it does exactly what
    [CreateBatchFromSingleUser] does with that key: same result, same polls,
    same calls. *)
Theorem CreateBatchFromMetaTxs_keys `{C : Crypto} (ctx : Ctx) (ds : list byte)
    (metaTxs : list MetaTx) (w : World) :
  (forall keys, List.length metaTxs <> List.length keys ->
     CreateBatchFromMetaTxs ctx metaTxs keys ds w
     = (Fail (ErrMetaTxsKeysMismatch (List.length metaTxs) (List.length keys)), w))
  /\ (forall key,
        CreateBatchFromMetaTxs ctx metaTxs (repeat key (List.length metaTxs)) ds w
        = CreateBatchFromSingleUser ctx metaTxs key ds w).
Proof.
  split.
  - intros keys Hlen. unfold CreateBatchFromMetaTxs.
    apply Nat.eqb_neq in Hlen. now rewrite Hlen.
  - intros key. unfold CreateBatchFromMetaTxs, CreateBatchFromSingleUser.
    rewrite repeat_length, Nat.eqb_refl. cbn [negb]. cbv zeta.
    apply range_loop_ext. intros k m w0 Hk.
    unfold bindM, lift, index.
    rewrite nth_error_repeat by lia. reflexivity.
Qed.

(** X17.  If recovery undoes signing, a batch [CreateBatchFromSingleUser]
    returns has one request per [MetaTx], and [VerifyBatchRequests] on it,
    under a context that is never done and the same domain separator, returns
    for each request whether its sender is the address of the signing key. *)
Theorem batch_sign_then_verify `{C : Crypto} (public_of : PrivateKey -> PublicKey)
    (ctx ctx' : Ctx) (ds : list byte) (metaTxs : list MetaTx) (key : PrivateKey)
    (w w' : World) (batch : BatchMetaTxRequestList) :
  (forall hash k sigBytes,
     crypto_Sign hash k = inr sigBytes ->
     List.length sigBytes = 65%nat ->
     crypto_SigToPub hash sigBytes = inr (public_of k)) ->
  (forall k, ctx' k = None) ->
  fst (CreateBatchFromSingleUser ctx metaTxs key ds w) = Ret batch ->
  List.length batch = List.length metaTxs
  /\ fst (VerifyBatchRequests ctx' batch ds w')
     = Ret (List.map
              (fun m => Address_eqb (AddressFromPrivateKey public_of key) (From m))
              metaTxs).
Proof.
  intros Hrec Hctx Hrun.
  assert (Hall : Forall2 (fun m req =>
                            MetaTx_of req = m
                            /\ sign_outcome m key ds = Ret (Signature_of req))
                   metaTxs batch).
  { unfold CreateBatchFromSingleUser in Hrun. cbv zeta in Hrun.
    apply (range_loop_result ctx
             (fun i metaTx =>
                wrapM (ErrCreateBatchRequestAt i) (CreateBatchRequest metaTx key ds))
             (fun m req => MetaTx_of req = m
                           /\ sign_outcome m key ds = Ret (Signature_of req))
             zero_BatchMetaTxRequest) with (done := []) (w := w) (r := batch) in Hrun.
    - destruct Hrun as (vs & -> & Hvs). exact Hvs.
    - intros i m w0 v Hv. unfold wrapM in Hv.
      pose proof (CreateBatchRequest_fst m key ds w0) as Hc.
      destruct (CreateBatchRequest m key ds w0) as [o w1]. cbn [fst] in Hc, Hv.
      subst o. apply create_outcome_Ret.
      destruct (create_outcome key ds m); cbn [wrap] in Hv; congruence. }
  split.
  - clear Hrun. induction Hall; cbn [List.length]; congruence.
  - rewrite (VerifyBatchRequests_collect ctx' ds Hctx batch w').
    apply collect_Ret. clear Hrun.
    induction Hall as [|m req ms reqs [Hm Hs] _ IH]; cbn [List.map]; constructor;
      [|exact IH].
    pose proof (verify_outcome_signed public_of Hrec m key ds (Signature_of req) Hs)
      as Hv.
    destruct req as [m' sig]. cbn [MetaTx_of Signature_of] in *. now subst m'.
Qed.

Lemma batch_sign_then_verify_witness :
  fst (VerifyBatchRequests (H := toy_crypto) background
         [mkBatchMetaTxRequest sample_MetaTx
            (mkSignature x00
               (Slice.vcopy (Vector.const x00 32)
                  (Address_Bytes (address_of_Z 1) ++ repeat x00 12))
               (Vector.const x00 32))] [] initial_world)
  = Ret [true].
Proof.
  refine (proj2 (batch_sign_then_verify (C := toy_crypto) (fun k => k)
                   background background [] [sample_MetaTx] (address_of_Z 1)
                   initial_world initial_world _ toy_crypto_recovers
                   (fun _ => eq_refl) _)).
  vm_compute. reflexivity.
Defined.

(** ** Preparing a batch for the ABI encoder *)

Lemma prepareBatchRequests_loop_encodable (batch : BatchMetaTxRequestList) :
  forall done total,
    (forall req, In req batch -> encodable req) ->
    prepareBatchRequests_loop batch (List.length done)
      (done ++ Slice.make Forward.zero (List.length batch)) total
    = Prepared (done ++ List.map expected_forward batch, total).
Proof.
  induction batch as [|req rest IH]; intros done total Hall.
  - cbn. now rewrite app_nil_r.
  - destruct (Hall req (or_introl eq_refl)) as (a & Ha & Hr).
    cbn [prepareBatchRequests_loop List.length Slice.make repeat].
    rewrite (TransferData_abs (MetaTx_of req) a Ha Hr).
    rewrite store_next. cbn [Forward.Value]. rewrite Z.add_0_r.
    replace (S (List.length done))
      with (List.length (done ++ [Forward.mk (From (MetaTx_of req))
                                    (Token (MetaTx_of req)) 0 (Gas (MetaTx_of req))
                                    (Deadline (MetaTx_of req))
                                    (spec_transferCalldata (To (MetaTx_of req)) (Z.abs a))
                                    (ToBytes (Signature_of req))]))
      by (rewrite length_app; simpl; lia).
    rewrite IH by (intros r Hin; apply Hall; now right).
    rewrite <- app_assoc. cbn [app List.map]. unfold expected_forward, amount_of.
    now rewrite Ha.
Qed.

Lemma prepareBatchRequests_loop_never_fails (batch : BatchMetaTxRequestList) :
  forall i out total e,
    prepareBatchRequests_loop batch i out total <> PrepareFailed e.
Proof.
  induction batch as [|req rest IH]; intros i out total e;
    cbn [prepareBatchRequests_loop]; [discriminate|].
  destruct (TransferData (MetaTx_of req)) as [d|e'|] eqn:Et.
  - apply IH.
  - now apply TransferData_never_fails in Et.
  - discriminate.
Qed.

Lemma prepareBatchRequests_loop_panics (pre : BatchMetaTxRequestList)
    (req : BatchMetaTxRequest) (post : BatchMetaTxRequestList) :
  forall i out total,
    (forall r, In r pre -> encodable r) ->
    TransferData (MetaTx_of req) = Panic ->
    prepareBatchRequests_loop (pre ++ req :: post) i out total = PreparePanic.
Proof.
  induction pre as [|r0 pre IH]; intros i out total Hall Hp;
    cbn [app prepareBatchRequests_loop].
  - now rewrite Hp.
  - destruct (Hall r0 (or_introl eq_refl)) as (a & Ha & Hr).
    rewrite (TransferData_abs (MetaTx_of r0) a Ha Hr).
    apply IH; [|exact Hp]. intros r Hin. apply Hall. now right.
Qed.

(** X18.  [prepareBatchRequests] never returns an error.  When every amount
    in the batch can be encoded (non-nil, absolute value below [2^256]) it
    returns one [ForwardRequestData] per request, in order, and the total
    value 0: each has the sender as [from], the token as [to], value 0, the
    gas limit and deadline of the request, the 68 bytes of transfer calldata
    and the 65 signature bytes.  It panics when it reaches a request whose
    [TransferData] panics. *)
Theorem prepareBatchRequests_outcome (batch : BatchMetaTxRequestList) :
  ((forall req, In req batch -> encodable req) ->
     prepareBatchRequests batch
     = Prepared (List.map expected_forward batch, TotalValue batch)
     /\ List.length (List.map expected_forward batch) = Count batch
     /\ TotalValue batch = 0)
  /\ (forall req,
        Forward.From (expected_forward req) = From (MetaTx_of req)
        /\ Forward.To (expected_forward req) = Token (MetaTx_of req)
        /\ Forward.Value (expected_forward req) = 0
        /\ Forward.Gas (expected_forward req) = Gas (MetaTx_of req)
        /\ Forward.Deadline (expected_forward req) = Deadline (MetaTx_of req)
        /\ List.length (Forward.Data_ (expected_forward req)) = 68%nat
        /\ List.length (Forward.Signature (expected_forward req)) = 65%nat
        /\ (encodable req ->
            TransferData (MetaTx_of req) = Ret (Forward.Data_ (expected_forward req))))
  /\ (forall e, prepareBatchRequests batch <> PrepareFailed e)
  /\ (forall pre req post,
        batch = pre ++ req :: post ->
        (forall r, In r pre -> encodable r) ->
        TransferData (MetaTx_of req) = Panic ->
        prepareBatchRequests batch = PreparePanic).
Proof.
  split; [|split; [|split]].
  - intros Hall. split; [|split; [|reflexivity]].
    + unfold prepareBatchRequests. cbv zeta.
      exact (prepareBatchRequests_loop_encodable batch [] 0 Hall).
    + unfold Count. apply length_map.
  - intros req. unfold expected_forward.
    cbn [Forward.From Forward.To Forward.Value Forward.Gas Forward.Deadline
         Forward.Data_ Forward.Signature].
    repeat (split; [reflexivity|]).
    split; [apply spec_transferCalldata_length|].
    split; [apply ToBytes_length|].
    intros (a & Ha & Hr). unfold amount_of. rewrite Ha.
    now apply TransferData_abs.
  - intros e. apply prepareBatchRequests_loop_never_fails.
  - intros pre req post -> Hall Hp. unfold prepareBatchRequests. cbv zeta.
    now apply prepareBatchRequests_loop_panics.
Qed.

(** ** Random nonces *)

(** X19.  If [rand.Int(_, max)] returns numbers in [0, max), the nonce
    [GenerateRandomNonce] returns is the number drawn below [2^64 - 1]: it is
    a [uint64], and never the largest one.  An error of the random source
    comes back wrapped. *)
Theorem GenerateRandomNonce_range (rand_Int : Z -> error + Z) :
  (forall max n, rand_Int max = inr n -> 0 <= n < max) ->
  (forall v, GenerateRandomNonce rand_Int = inr v ->
     rand_Int (two64 - 1) = inr v /\ is_uint64 v /\ v <> two64 - 1)
  /\ (forall e, GenerateRandomNonce rand_Int = inl e ->
        exists err, rand_Int (two64 - 1) = inl err /\ e = ErrGenerateNonce err).
Proof.
  intros Hrand. unfold GenerateRandomNonce. cbv zeta. fold two64.
  destruct (rand_Int (two64 - 1)) as [err|n] eqn:E; split; try discriminate.
  - intros e He. injection He as <-. now exists err.
  - intros v Hv. injection Hv as <-.
    apply Hrand in E. unfold is_uint64.
    rewrite Z.mod_small by lia. repeat split; try lia.
Qed.

Lemma GenerateRandomNonce_range_witness :
  rand_Int_low (two64 - 1) = inr 41 /\ is_uint64 41 /\ 41 <> two64 - 1.
Proof.
  refine (proj1 (GenerateRandomNonce_range rand_Int_low _) 41 eq_refl).
  intros max n. unfold rand_Int_low.
  destruct (41 <? max) eqn:E; [|discriminate].
  intros Hn. injection Hn as <-. apply Z.ltb_lt in E. lia.
Defined.

(** ** Cancellation in the middle of a batch *)

Section CancelledMidway.
Context {A B : Type}.
Variables (ctx : Ctx) (body : nat -> A -> M B) (evs : A -> list Event).

Hypothesis body_events :
  forall i x w, exists d,
    snd (body i x w) = mkWorld (polls w) (trace w ++ d)
    /\ prefix_of d (evs x)
    /\ (forall v, fst (body i x w) = Ret v -> d = evs x).

Lemma range_loop_cancelled_at (e : ContextError) (pre : list A) (x : A)
    (post : list A) :
  forall i out w,
    (forall j, (j < List.length pre)%nat -> ctx (polls w + j)%nat = None) ->
    ctx (polls w + List.length pre)%nat = Some e ->
    (forall k y w0, In y pre -> exists v, fst (body k y w0) = Ret v) ->
    range_loop ctx body (pre ++ x :: post) i out w
    = (Fail (ErrContext e),
       mkWorld (S (polls w + List.length pre))
         (trace w ++ flat_map (fun y => EvPoll :: evs y) pre ++ [EvPoll])).
Proof.
  induction pre as [|y pre IH]; intros i out w Hnone Hsome Hok.
  - cbn [app List.length flat_map]. rewrite Nat.add_0_r in *.
    now apply range_loop_cancelled.
  - cbn [app]. pose proof (Hnone 0%nat ltac:(cbn; lia)) as H0.
    rewrite Nat.add_0_r in H0. rewrite (range_loop_step ctx body y _ i out w H0).
    set (w1 := mkWorld (S (polls w)) (trace w ++ [EvPoll])).
    destruct (Hok i y w1 (or_introl eq_refl)) as [v Hv].
    destruct (body_events i y w1) as (d & Hw & _ & Hfull).
    specialize (Hfull v Hv). subst d.
    destruct (body i y w1) as [o w2]. cbn [fst snd] in Hv, Hw. subst o w2.
    rewrite IH.
    + subst w1. cbn [polls trace List.length flat_map]. f_equal. f_equal.
      * lia.
      * now rewrite <- !app_assoc.
    + intros j Hj. subst w1. cbn [polls].
      replace (S (polls w) + j)%nat with (polls w + S j)%nat by lia.
      apply Hnone. cbn [List.length]. lia.
    + subst w1. cbn [polls].
      replace (S (polls w) + List.length pre)%nat
        with (polls w + List.length (y :: pre))%nat by (cbn [List.length]; lia).
      exact Hsome.
    + intros k z w0 Hz. apply Hok. now right.
Qed.

End CancelledMidway.

(** X20.  When the context becomes done between two requests, that is, at
    the poll before request number [n] and not at the [n] polls before it,
    and the [n] requests before it were processed without error,
    [CreateBatchFromSingleUser] and [VerifyBatchRequests] return the
    context's error and no partial result: the primitive has been called for
    exactly those [n] requests, in order, and for none after them. *)
Theorem batch_cancelled_midway `{C : Crypto} (ctx : Ctx) (ds : list byte)
    (w : World) (e : ContextError) :
  (forall pre m post key,
     (forall j, (j < List.length pre)%nat -> ctx (polls w + j)%nat = None) ->
     ctx (polls w + List.length pre)%nat = Some e ->
     (forall m', In m' pre -> exists req, create_outcome key ds m' = Ret req) ->
     CreateBatchFromSingleUser ctx (pre ++ m :: post) key ds w
     = (Fail (ErrContext e),
        mkWorld (S (polls w + List.length pre))
          (trace w ++ signing_trace pre ds ++ [EvPoll])))
  /\ (forall pre req post,
        (forall j, (j < List.length pre)%nat -> ctx (polls w + j)%nat = None) ->
        ctx (polls w + List.length pre)%nat = Some e ->
        (forall r, In r pre -> exists b, verify_outcome ds r = Ret b) ->
        VerifyBatchRequests ctx (pre ++ req :: post) ds w
        = (Fail (ErrContext e),
           mkWorld (S (polls w + List.length pre))
             (trace w ++ verification_trace pre ds ++ [EvPoll]))).
Proof.
  split.
  - intros pre m post key Hnone Hsome Hok.
    unfold CreateBatchFromSingleUser. cbv zeta.
    apply (range_loop_cancelled_at ctx
             (fun i metaTx =>
                wrapM (ErrCreateBatchRequestAt i) (CreateBatchRequest metaTx key ds))
             (fun m' => call_events EvSign m' ds)
             (sign_body_events ds key) e pre m post 0%nat _ w Hnone Hsome).
    intros k y w0 Hy. destruct (Hok y Hy) as [req Hreq].
    exists req. unfold wrapM.
    pose proof (CreateBatchRequest_fst y key ds w0) as Hc.
    destruct (CreateBatchRequest y key ds w0) as [o w1]. cbn [fst] in *.
    subst o. now rewrite Hreq.
  - intros pre req post Hnone Hsome Hok.
    unfold VerifyBatchRequests. cbv zeta.
    apply (range_loop_cancelled_at ctx
             (fun i r =>
                wrapM (ErrVerifyAt i)
                  (VerifyMetaTxSignature (MetaTx_of r) (Signature_of r) ds))
             (fun r => call_events (fun h => EvRecover h (ToBytes (Signature_of r)))
                         (MetaTx_of r) ds)
             (verify_body_events ds) e pre req post 0%nat _ w Hnone Hsome).
    intros k y w0 Hy. destruct (Hok y Hy) as [b Hb].
    exists b. unfold wrapM.
    pose proof (VerifyMetaTxSignature_fst y ds w0) as Hc.
    destruct (VerifyMetaTxSignature (MetaTx_of y) (Signature_of y) ds w0) as [o w1].
    cbn [fst] in *. subst o. now rewrite Hb.
Qed.

Lemma batch_cancelled_midway_witness :
  CreateBatchFromSingleUser (H := toy_crypto) done_after_one
    ([sample_MetaTx] ++ sample_MetaTx :: []) (address_of_Z 1) [] initial_world
  = (Fail (ErrContext Canceled),
     mkWorld 2 (signing_trace [sample_MetaTx] [] ++ [EvPoll])).
Proof.
  refine (proj1 (batch_cancelled_midway (C := toy_crypto) done_after_one []
                   initial_world Canceled)
            [sample_MetaTx] sample_MetaTx [] (address_of_Z 1) _ eq_refl _).
  - intros j Hj. destruct j; [reflexivity|]. simpl in Hj. lia.
  - intros m' [<- | []]. eexists. vm_compute. reflexivity.
Defined.
